(** * Wound Record Resolver: stage classification, deduplication, search

    A shallow embedding of [isMatchingStage] and [processedReports] of
    [src/App.tsx] together with the [WoundReport] interface of the type
    declarations, and the properties of the resolver proved over it; then
    the rest of the component: [getStageReports], the export handlers, the
    facilities tile, and the state with its handlers as a transition system.

    Modelling conventions.
    - A JavaScript string is a sequence of UTF-16 code units.  The embedding
      covers the strings whose code units are below 256 (Latin-1): a code unit
      is an [ascii], a string a [string].  On that range [toLowerCase] acts
      unit by unit and [trim] strips the units 9-13, 32 and 160.
    - [createdAt] is an epoch-millisecond timestamp: an integer, [Z].  On
      integers [b.createdAt - a.createdAt] is exact and the comparator is
      consistent, so [Array.prototype.sort] (stable since ES2019) has one
      possible result, the one computed by a stable insertion sort.
    - A [Map] keeps its entries in insertion order: an association list.
    - Arrays and maps are mutable objects; [Heap] below is the store they
      live in.  No statement of the resolver assigns to a field of a report,
      so reports are stored in the arrays as values.
    - [storageService], [exportToPDF] and [alert] are outside the sources:
      the store is an interface ([StorageService]), an export or an alert is
      the [Effect] a handler returns. *)

From Stdlib Require Import Bool List ZArith NArith Lia Ascii String.
From Stdlib Require Import Sorting.Sorted Sorting.Permutation.
Import ListNotations.

Local Open Scope string_scope.
Local Open Scope Z_scope.

(** ** Strings *)

Module JsString.

(** [String.prototype.toLowerCase] on one Latin-1 code unit: A-Z and the
    accented capitals U+00C0-U+00DE (except the sign U+00D7) move up by 32. *)
Definition lowerUnit (c : ascii) : ascii :=
  let n := N_of_ascii c in
  if ((65 <=? n) && (n <=? 90) ||
      (192 <=? n) && (n <=? 222) && negb (n =? 215))%N
  then ascii_of_N (n + 32)
  else c.

Fixpoint toLowerCase (s : string) : string :=
  match s with
  | EmptyString => EmptyString
  | String c t => String (lowerUnit c) (toLowerCase t)
  end.

(** WhiteSpace and LineTerminator code units below 256. *)
Definition isWhite (c : ascii) : bool :=
  let n := N_of_ascii c in
  ((9 <=? n) && (n <=? 13) || (n =? 32) || (n =? 160))%N.

Fixpoint trimStart (s : string) : string :=
  match s with
  | EmptyString => EmptyString
  | String c t => if isWhite c then trimStart t else s
  end.

Fixpoint trimEnd (s : string) : string :=
  match s with
  | EmptyString => EmptyString
  | String c t =>
      match trimEnd t with
      | EmptyString => if isWhite c then EmptyString else String c EmptyString
      | t' => String c t'
      end
  end.

(** [String.prototype.trim]. *)
Definition trim (s : string) : string := trimEnd (trimStart s).

(** [s.includes(x)]: [x] occurs in [s] at some position. *)
Fixpoint includes (s x : string) : bool :=
  String.prefix x s ||
  match s with
  | EmptyString => false
  | String _ t => includes t x
  end.

(** What "is a substring of" means. *)
Definition Substring (x s : string) : Prop :=
  exists pre post, s = (pre ++ x ++ post)%string.

End JsString.

Import JsString.

(** ** Data model *)

(** [interface WoundReport]. *)
Record WoundReport : Type := mkWoundReport {
  id : string;
  patientName : string;
  roomNo : string;
  dateOfDiscovery : string;
  facHosp : string;
  typeStage : string;
  isNoStage : bool;
  site : string;
  colorDrainage : string;
  undermining : string;
  week1 : string;
  week2 : string;
  week3 : string;
  week4 : string;
  currentTreatment : string;
  comment : string;
  createdAt : Z
}.

(** ** Stage classification *)

(** [isAnyStage] of [isMatchingStage], as a function of the lowercased label. *)
Definition isAnyStage (s : string) : bool :=
  includes s "stage 1" || includes s "stage i" ||
  includes s "stage 2" || includes s "stage ii" ||
  includes s "stage 3" || includes s "stage iii" ||
  includes s "stage 4" || includes s "stage iv" ||
  includes s "unstageable".

(** [isMatchingStage(r, stage)]. *)
Definition isMatchingStage (r : WoundReport) (stage : string) : bool :=
  let s := toLowerCase (typeStage r) in
  if (stage =? "all")%string then true
  else if (stage =? "staged")%string then isAnyStage s && negb (isNoStage r)
  else if (stage =? "none")%string then isNoStage r || negb (isAnyStage s)
  else if (stage =? "1")%string then
    includes s "stage 1" || (includes s "stage i" && negb (includes s "ii"))
  else if (stage =? "2")%string then includes s "stage 2" || includes s "stage ii"
  else if (stage =? "3")%string then includes s "stage 3" || includes s "stage iii"
  else if (stage =? "4")%string then includes s "stage 4" || includes s "stage iv"
  else if (stage =? "unstageable")%string then includes s "unstageable"
  else false.

(** ** Arrays and maps as values *)

Module JsArray.
Section Sort.
Context {A : Type} (compareFn : A -> A -> Z).

(** Put [x] in front of the first element it does not have to follow. *)
Fixpoint insert (x : A) (l : list A) : list A :=
  match l with
  | [] => [x]
  | y :: t => if compareFn x y <=? 0 then x :: l else y :: insert x t
  end.

(** [Array.prototype.sort(compareFn)]: the stable sort. *)
Definition sort (l : list A) : list A := fold_right insert [] l.

End Sort.
End JsArray.

Module JsMap.

(** Entries of a [Map<string, WoundReport>], oldest insertion first. *)
Definition t : Type := list (string * WoundReport).

Definition empty : t := [].

(** [m.has(key)]. *)
Definition has (m : t) (key : string) : bool :=
  existsb (fun e => (fst e =? key)%string) m.

(** [m.set(key, value)]: a present key keeps its place, a new key goes last. *)
Fixpoint set (m : t) (key : string) (value : WoundReport) : t :=
  match m with
  | [] => [(key, value)]
  | e :: m' =>
      if (fst e =? key)%string then (key, value) :: m'
      else e :: set m' key value
  end.

(** [m.values()], in insertion order. *)
Definition values (m : t) : list WoundReport := map snd m.

End JsMap.

(** ** The resolver on values *)

(** The comparator [(a, b) => b.createdAt - a.createdAt]. *)
Definition byCreatedDesc (a b : WoundReport) : Z := createdAt b - createdAt a.

(** The map key of a report: the three normalised fields joined by a bar. *)
Definition woundKey (r : WoundReport) : string :=
  (trim (toLowerCase (patientName r)) ++ "|" ++
   trim (toLowerCase (roomNo r)) ++ "|" ++
   trim (toLowerCase (site r)))%string.

(** The body of the [forEach] callback, on the map it updates. *)
Definition keepFirst (m : JsMap.t) (r : WoundReport) : JsMap.t :=
  let key := woundKey r in
  if negb (JsMap.has m key) then JsMap.set m key r else m.

Definition sortedAll (reports : list WoundReport) : list WoundReport :=
  JsArray.sort byCreatedDesc reports.

Definition woundMap (reports : list WoundReport) : JsMap.t :=
  fold_left keepFirst (sortedAll reports) JsMap.empty.

(** The deduplication step: [Array.from(woundMap.values())]. *)
Definition uniqueWounds (reports : list WoundReport) : list WoundReport :=
  JsMap.values (woundMap reports).

(** [queryMatch] of the filter callback. *)
Definition queryMatch (r : WoundReport) (searchQuery : string) : bool :=
  includes (toLowerCase (patientName r)) (toLowerCase searchQuery) ||
  includes (toLowerCase (roomNo r)) (toLowerCase searchQuery) ||
  includes (toLowerCase (facHosp r)) (toLowerCase searchQuery) ||
  includes (toLowerCase (site r)) (toLowerCase searchQuery).

(** The filter callback. *)
Definition passes (searchQuery stageFilter : string) (r : WoundReport) : bool :=
  let queryMatch := queryMatch r searchQuery in
  let stageMatch := isMatchingStage r stageFilter in
  queryMatch && stageMatch.

(** [processedReports], as a function of the reports, the query and the
    stage filter. *)
Definition processedReports
    (reports : list WoundReport) (searchQuery stageFilter : string)
    : list WoundReport :=
  JsArray.sort byCreatedDesc
    (filter (passes searchQuery stageFilter) (uniqueWounds reports)).

(** The logical wound identity the comment above [processedReports] names:
    patient name, room number and site, each lowercased and trimmed. *)
Definition woundIdentity (r : WoundReport) : string * string * string :=
  (trim (toLowerCase (patientName r)),
   trim (toLowerCase (roomNo r)),
   trim (toLowerCase (site r))).

Definition sameWound (a b : WoundReport) : bool :=
  let '(n1, r1, s1) := woundIdentity a in
  let '(n2, r2, s2) := woundIdentity b in
  ((n1 =? n2) && (r1 =? r2) && (s1 =? s2))%string.

(** ** The resolver on the store *)

Module Heap.

Definition ref : Type := nat.

(** The store: every array and every map allocated so far, by reference. *)
Record heap : Type := mkHeap {
  arrays : list (list WoundReport);
  maps : list JsMap.t
}.

(** A computation reads and writes the store; [None] is a dangling reference. *)
Definition M (A : Type) : Type := heap -> option (A * heap).

Definition ret {A} (a : A) : M A := fun h => Some (a, h).

Definition bind {A B} (c : M A) (k : A -> M B) : M B :=
  fun h => match c h with
           | Some (a, h') => k a h'
           | None => None
           end.

Fixpoint update {A} (l : list A) (i : nat) (x : A) : list A :=
  match l, i with
  | [], _ => []
  | _ :: t, O => x :: t
  | y :: t, S i' => y :: update t i' x
  end.

Definition newArray (xs : list WoundReport) : M ref :=
  fun h => Some (List.length (arrays h), mkHeap (arrays h ++ [xs])%list (maps h)).

Definition readArray (a : ref) : M (list WoundReport) :=
  fun h => match nth_error (arrays h) a with
           | Some xs => Some (xs, h)
           | None => None
           end.

Definition writeArray (a : ref) (xs : list WoundReport) : M unit :=
  fun h => match nth_error (arrays h) a with
           | Some _ => Some (tt, mkHeap (update (arrays h) a xs) (maps h))
           | None => None
           end.

Definition newMap : M ref :=
  fun h => Some (List.length (maps h), mkHeap (arrays h) (maps h ++ [JsMap.empty])%list).

Definition readMap (m : ref) : M JsMap.t :=
  fun h => match nth_error (maps h) m with
           | Some mp => Some (mp, h)
           | None => None
           end.

Definition writeMap (m : ref) (mp : JsMap.t) : M unit :=
  fun h => match nth_error (maps h) m with
           | Some _ => Some (tt, mkHeap (arrays h) (update (maps h) m mp))
           | None => None
           end.

End Heap.

Import Heap.

Notation "x <- c ;; k" := (bind c (fun x => k))
  (at level 61, c at next level, right associativity).
Notation "c ;;; k" := (bind c (fun _ => k))
  (at level 61, right associativity).

(** [[...a]]: a fresh array with the elements of [a]. *)
Definition spread (a : ref) : M ref :=
  xs <- readArray a ;; newArray xs.

(** [a.sort(compareFn)]: sorts [a] in place and returns [a] itself. *)
Definition sortInPlace (a : ref) (compareFn : WoundReport -> WoundReport -> Z)
    : M ref :=
  xs <- readArray a ;;
  writeArray a (JsArray.sort compareFn xs) ;;;
  ret a.

(** [a.filter(p)]: a fresh array. *)
Definition filterNew (a : ref) (p : WoundReport -> bool) : M ref :=
  xs <- readArray a ;; newArray (filter p xs).

(** [Array.from(m.values())]: a fresh array. *)
Definition arrayFromValues (m : ref) : M ref :=
  mp <- readMap m ;; newArray (JsMap.values mp).

Definition mapHas (m : ref) (key : string) : M bool :=
  mp <- readMap m ;; ret (JsMap.has mp key).

Definition mapSet (m : ref) (key : string) (value : WoundReport) : M unit :=
  mp <- readMap m ;; writeMap m (JsMap.set mp key value).

(** [a.forEach(f)] visits the indices below the length [a] had at the call,
    reading each element when its turn comes and skipping absent ones. *)
Fixpoint forEachFrom (a : ref) (f : WoundReport -> M unit) (i n : nat)
    : M unit :=
  match n with
  | O => ret tt
  | S n' =>
      xs <- readArray a ;;
      match nth_error xs i with
      | Some x => f x
      | None => ret tt
      end ;;;
      forEachFrom a f (S i) n'
  end.

Definition forEach (a : ref) (f : WoundReport -> M unit) : M unit :=
  xs <- readArray a ;; forEachFrom a f 0 (List.length xs).

(** The [forEach] callback of [processedReports], closed over [woundMap]. *)
Definition keepFirst_m (woundMap : ref) (r : WoundReport) : M unit :=
  let key := woundKey r in
  present <- mapHas woundMap key ;;
  if negb present then mapSet woundMap key r else ret tt.

(** [processedReports] statement by statement; [reports] is the reference
    held by the component state. *)
Definition processedReports_m
    (reports : ref) (searchQuery stageFilter : string) : M ref :=
  woundMap <- newMap ;;
  copy <- spread reports ;;
  sortedAll <- sortInPlace copy byCreatedDesc ;;
  forEach sortedAll (keepFirst_m woundMap) ;;;
  uniqueWounds <- arrayFromValues woundMap ;;
  filtered <- filterNew uniqueWounds (passes searchQuery stageFilter) ;;
  sortInPlace filtered byCreatedDesc.

(** Descending timestamps along a list: each element against its successor. *)
Definition descending (l : list WoundReport) : Prop :=
  forall i a b,
    nth_error l i = Some a -> nth_error l (S i) = Some b ->
    createdAt a >= createdAt b.

(** ** Notions the statements use *)

(** [newerFirst a b]: [a] may stand before [b] in a descending list. *)
Definition newerFirst (a b : WoundReport) : Prop := createdAt b <= createdAt a.

(** The reports filed under the key [k]. *)
Definition keyIs (k : string) (r : WoundReport) : bool :=
  (woundKey r =? k)%string.

(** What [keepFirst] does to the values of the map. *)
Definition keepFirstValue (vs : list WoundReport) (r : WoundReport)
    : list WoundReport :=
  if existsb (keyIs (woundKey r)) vs then vs else (vs ++ [r])%list.

(** Every entry of the map is filed under the key of its report. *)
Definition keyed (m : JsMap.t) : Prop :=
  forall e, In e m -> fst e = woundKey (snd e).

(** The normalised patient name and room number are free of the bar that
    [woundKey] joins the fields with. *)
Definition barFree (r : WoundReport) : bool :=
  negb (includes (trim (toLowerCase (patientName r))) "|") &&
  negb (includes (trim (toLowerCase (roomNo r))) "|").

(** ** Sample reports *)

(** A report with the given identity fields, label, flag and timestamp; the
    other fields are empty. *)
Definition sample (name room place label : string) (flag : bool) (created : Z)
    : WoundReport :=
  mkWoundReport "" name room "" "" label flag place "" "" "" "" "" "" "" ""
                created.

(** The two snapshots of the specification's example. *)
Definition reportA : WoundReport :=
  sample "Jane Doe" "4B" "Heel" "Stage 2" false 100.
Definition reportB : WoundReport :=
  sample "jane doe" "4b" "heel" "Stage 3" false 200.

(** Two different wounds whose keys coincide. *)
Definition barLeft : WoundReport := sample "a|b" "c" "s" "Stage 2" false 100.
Definition barRight : WoundReport := sample "a" "b|c" "s" "Stage 3" false 200.

(** ** Dashboard and export helpers *)

(** [getStageReports(stage)]; [processedReports] is the list it closes over. *)
Definition getStageReports (processedReports : list WoundReport)
    (stage : string) : list WoundReport :=
  filter (fun r => isMatchingStage r stage) processedReports.

Module JsSet.

(** [s.add(x)]: a value already present (the same string) is not added. *)
Definition add (s : list string) (x : string) : list string :=
  if existsb (String.eqb x) s then s else (s ++ [x])%list.

(** [[...new Set(xs)]]: the distinct values, each at its first occurrence. *)
Definition ofArray (xs : list string) : list string := fold_left add xs [].

End JsSet.

(** [Boolean(s)] for a string: every string but the empty one is truthy. *)
Definition truthy (s : string) : bool := negb (s =? "")%string.

(** The list behind the "Active Facilities" tile:
    [[...new Set(processedReports.map(r => r.facHosp))].filter(Boolean)]. *)
Definition activeFacilities (processedReports : list WoundReport)
    : list string :=
  filter truthy (JsSet.ofArray (map facHosp processedReports)).

(** [label.replace(/\s+/g, '_')]: every maximal run of white space becomes
    one underscore.  [inRun] tells that the unit before was white. *)
Fixpoint replaceRuns (inRun : bool) (s : string) : string :=
  match s with
  | EmptyString => EmptyString
  | String c t =>
      if isWhite c
      then if inRun then replaceRuns true t
           else String "_" (replaceRuns true t)
      else String c (replaceRuns false t)
  end.

Definition replaceWhite (s : string) : string := replaceRuns false s.

(** What an export handler does to the outside: an [alert] or a call of
    [exportToPDF(reports, title, filename)]. *)
Inductive Effect : Type :=
| Alert (message : string)
| ExportToPDF (reports : list WoundReport) (title filename : string).

(** [handleExportByStage(stage, label)].  [String.prototype.toUpperCase]
    leaves the Latin-1 range (U+00FF, U+00B5, U+00DF) and is a parameter. *)
Definition handleExportByStage (toUpperCase : string -> string)
    (processedReports : list WoundReport) (stage label : string) : Effect :=
  let filtered := getStageReports processedReports stage in
  if (List.length filtered =? 0)%nat
  then Alert ("No clinical records found for " ++ label ++ ".")%string
  else ExportToPDF filtered
         ("AUDIT: " ++ toUpperCase label)%string
         ("Stage_Report_" ++ replaceWhite label)%string.

(** [filterLabel] of [handleExportFiltered]. *)
Definition filterLabel (stageFilter : string) : string :=
  if (stageFilter =? "all")%string then "All Records"
  else if (stageFilter =? "staged")%string then "Pressure Ulcers"
  else "Non-Staged".

(** [handleExportFiltered]. *)
Definition handleExportFiltered (processedReports : list WoundReport)
    (searchQuery stageFilter : string) : Effect :=
  if (List.length processedReports =? 0)%nat
  then Alert "No records match your current search/filter. Nothing to export."
  else
    let filterLabel := filterLabel stageFilter in
    let title :=
      if truthy searchQuery
      then ("FILTERED AUDIT: " ++ searchQuery ++ " (" ++ filterLabel ++ ")")%string
      else ("FILTERED AUDIT: " ++ filterLabel)%string in
    ExportToPDF processedReports title "Filtered_Wound_Audit".

(** ** The component: state, handlers, events *)

(** [enum UserRole] and [enum AppTab]. *)
Inductive UserRole : Type := ADMIN | NURSE | VIEWER.
Inductive AppTab : Type := DASHBOARD | NEW_REPORT | HISTORY | AI_ASSISTANT.

Definition UserRole_eqb (a b : UserRole) : bool :=
  match a, b with
  | ADMIN, ADMIN | NURSE, NURSE | VIEWER, VIEWER => true
  | _, _ => false
  end.

Definition AppTab_eqb (a b : AppTab) : bool :=
  match a, b with
  | DASHBOARD, DASHBOARD | NEW_REPORT, NEW_REPORT
  | HISTORY, HISTORY | AI_ASSISTANT, AI_ASSISTANT => true
  | _, _ => false
  end.

(** [storageService] of [./services/storageService]: the module is not among
    the sources, so its four operations are an interface over any store. *)
Class StorageService (Store : Type) : Type := {
  getAllReports : Store -> list WoundReport;
  saveReport : WoundReport -> Store -> Store;
  updateReport : WoundReport -> Store -> Store;
  deleteReport : string -> Store -> Store
}.

Module App.

Module User.
(** [interface User]. *)
Record t : Type := mk {
  id : string;
  name : string;
  username : string;
  role : UserRole;
  password : option string
}.
End User.

Definition DEFAULT_USER : User.t :=
  User.mk "admin-default" "Clinical Administrator" "admin" ADMIN None.

(** The [useState] cells of [App]. *)
Record State : Type := mkState {
  currentUser : option User.t;
  activeTab : AppTab;
  reports : list WoundReport;
  editingReport : option WoundReport;
  chartPatientId : string;
  reportToDelete : option WoundReport;
  searchQuery : string;
  stageFilter : string
}.

(** The initial values given to [useState]. *)
Definition initialState : State :=
  mkState (Some DEFAULT_USER) DASHBOARD [] None "all" None "" "all".

Definition setActiveTab (v : AppTab) (s : State) : State :=
  mkState (currentUser s) v (reports s) (editingReport s)
          (chartPatientId s) (reportToDelete s) (searchQuery s)
          (stageFilter s).

Definition setReports (v : list WoundReport) (s : State) : State :=
  mkState (currentUser s) (activeTab s) v (editingReport s)
          (chartPatientId s) (reportToDelete s) (searchQuery s)
          (stageFilter s).

Definition setEditingReport (v : option WoundReport) (s : State) : State :=
  mkState (currentUser s) (activeTab s) (reports s) v
          (chartPatientId s) (reportToDelete s) (searchQuery s)
          (stageFilter s).

Definition setChartPatientId (v : string) (s : State) : State :=
  mkState (currentUser s) (activeTab s) (reports s) (editingReport s)
          v (reportToDelete s) (searchQuery s) (stageFilter s).

Definition setReportToDelete (v : option WoundReport) (s : State) : State :=
  mkState (currentUser s) (activeTab s) (reports s) (editingReport s)
          (chartPatientId s) v (searchQuery s) (stageFilter s).

Definition setSearchQuery (v : string) (s : State) : State :=
  mkState (currentUser s) (activeTab s) (reports s) (editingReport s)
          (chartPatientId s) (reportToDelete s) v (stageFilter s).

Definition setStageFilter (v : string) (s : State) : State :=
  mkState (currentUser s) (activeTab s) (reports s) (editingReport s)
          (chartPatientId s) (reportToDelete s) (searchQuery s) v.

(** [currentUser?.role === role]. *)
Definition hasRole (s : State) (role : UserRole) : bool :=
  match currentUser s with
  | Some u => UserRole_eqb (User.role u) role
  | None => false
  end.

Definition canModify (s : State) : bool := hasRole s ADMIN || hasRole s NURSE.
Definition canDelete (s : State) : bool := hasRole s ADMIN.
Definition canAccessAI (s : State) : bool := hasRole s ADMIN || hasRole s NURSE.

(** The list the component shows: [processedReports] of its state. *)
Definition shown (s : State) : list WoundReport :=
  processedReports (reports s) (searchQuery s) (stageFilter s).

Module Tab.
Record t : Type := mk { id : AppTab; label : string; icon : string }.
End Tab.

(** [availableTabs]. *)
Definition availableTabs (s : State) : list Tab.t :=
  let tabs :=
    [Tab.mk DASHBOARD "Dashboard"
       "M4 6a2 2 0 012-2h2a2 2 0 012 2v2a2 2 0 01-2 2H6a2 2 0 01-2-2V6zM14 6a2 2 0 012-2h2a2 2 0 012 2v2a2 2 0 01-2 2h-2a2 2 0 01-2-2V6zM4 16a2 2 0 012-2h2a2 2 0 012 2v2a2 2 0 01-2 2H6a2 2 0 01-2-2v-2zM14 16a2 2 0 012-2h2a2 2 0 012 2v2a2 2 0 01-2 2h-2a2 2 0 01-2-2v-2z"] in
  let tabs :=
    if canModify s
    then (tabs ++ [Tab.mk NEW_REPORT
                     (match editingReport s with
                      | Some _ => "Update Record"
                      | None => "New Entry"
                      end)
                     "M12 4v16m8-8H4"])%list
    else tabs in
  let tabs :=
    (tabs ++ [Tab.mk HISTORY "Records History"
                "M9 5H7a2 2 0 00-2 2v12a2 2 0 002 2h10a2 2 0 002-2V7a2 2 0 00-2-2h-2M9 5a2 2 0 002 2h2a2 0 002-2M9 5a2 2 0 002-2h2a2 0 002-2M9 5a2 2 0 012-2h2a2 0 012 2m-3 7h3m-3 4h3m-6-4h.01M9 16h.01"])%list in
  if canAccessAI s
  then (tabs ++ [Tab.mk AI_ASSISTANT "AI Analyst" "M13 10V3L4 14h7v7l9-11h-7z"])%list
  else tabs.

Section Handlers.
Context {Store : Type} `{StorageService Store}.

(** The component state together with the store behind [storageService]. *)
Definition World : Type := (State * Store)%type.

(** The effect run once after the first render. *)
Definition mount (w : World) : World :=
  let (s, store) := w in
  (setReports (getAllReports store) s, store).

Definition handleSaveReport (report : WoundReport) (w : World) : World :=
  let (s, store) := w in
  let existing :=
    find (fun r => (id r =? id report)%string) (reports s) in
  let store :=
    match existing with
    | Some _ => updateReport report store
    | None => saveReport report store
    end in
  (setActiveTab HISTORY
     (setEditingReport None (setReports (getAllReports store) s)),
   store).

Definition handleDeleteClick (report : WoundReport) (w : World) : World :=
  let (s, store) := w in
  if negb (hasRole s ADMIN) then w
  else (setReportToDelete (Some report) s, store).

Definition confirmDelete (w : World) : World :=
  let (s, store) := w in
  match reportToDelete s with
  | Some r =>
      let store := deleteReport (id r) store in
      (setReportToDelete None (setReports (getAllReports store) s), store)
  | None => w
  end.

Definition handleEdit (report : WoundReport) (w : World) : World :=
  let (s, store) := w in
  if hasRole s VIEWER then w
  else (setActiveTab NEW_REPORT (setEditingReport (Some report) s), store).

(** The [onClick] of a tab button. *)
Definition clickTab (tab : AppTab) (w : World) : World :=
  let (s, store) := w in
  let s := setActiveTab tab s in
  (if negb (AppTab_eqb tab NEW_REPORT) then setEditingReport None s else s,
   store).

(** What the user can do to the rendered component. *)
Inductive Event : Type :=
| ClickTab (tab : AppTab)
| OpenAIPortal
| SubmitReport (report : WoundReport)
| ClickEdit (r : WoundReport)
| ClickDelete (r : WoundReport)
| ConfirmDelete
| CloseDeleteModal
| SelectChartPatient (value : string)
| SelectStageFilter (value : string)
| TypeSearch (value : string)
| ResetAllFilters.

(** The handler each event is wired to. *)
Definition step (e : Event) (w : World) : World :=
  match e with
  | ClickTab tab => clickTab tab w
  | OpenAIPortal => (setActiveTab AI_ASSISTANT (fst w), snd w)
  | SubmitReport report => handleSaveReport report w
  | ClickEdit r => handleEdit r w
  | ClickDelete r => handleDeleteClick r w
  | ConfirmDelete => confirmDelete w
  | CloseDeleteModal => (setReportToDelete None (fst w), snd w)
  | SelectChartPatient v => (setChartPatientId v (fst w), snd w)
  | SelectStageFilter v => (setStageFilter v (fst w), snd w)
  | TypeSearch v => (setSearchQuery v (fst w), snd w)
  | ResetAllFilters =>
      (setStageFilter "all" (setSearchQuery "" (fst w)), snd w)
  end.

(** When the element that raises the event is rendered.  Nothing is, while
    [currentUser] is null; the delete dialog is a component whose source is
    absent, so its two callbacks may come at any time. *)
Definition rendered (w : World) (e : Event) : Prop :=
  let s := fst w in
  currentUser s <> None /\
  match e with
  | ClickTab tab => In tab (map Tab.id (availableTabs s))
  | OpenAIPortal => activeTab s = DASHBOARD
  | SubmitReport _ => activeTab s = NEW_REPORT /\ canModify s = true
  | ClickEdit r =>
      activeTab s = HISTORY /\ canModify s = true /\ In r (shown s)
  | ClickDelete r =>
      activeTab s = HISTORY /\ canDelete s = true /\ In r (shown s)
  | ConfirmDelete => True
  | CloseDeleteModal => True
  | SelectChartPatient v =>
      activeTab s = DASHBOARD /\ In v ("all" :: map id (shown s))
  | SelectStageFilter v =>
      activeTab s = HISTORY /\ In v ["all"; "staged"; "none"]
  | TypeSearch _ => activeTab s = HISTORY
  | ResetAllFilters => activeTab s = HISTORY /\ shown s = []
  end.

(** The worlds a session that starts in [w0] can come to. *)
Inductive reachable (w0 : World) : World -> Prop :=
| reach_start : reachable w0 w0
| reach_step (w : World) (e : Event) :
    reachable w0 w -> rendered w e -> reachable w0 (step e w).

End Handlers.

End App.

(** Modelled from the spec: the report store (create, read, update and delete
    by identifier), which [./services/storageService] implements and the
    sources do not include; a list of reports, used to run the examples. *)
#[export] Instance listStore : StorageService (list WoundReport) := {
  getAllReports := fun store => store;
  saveReport := fun r store => (store ++ [r])%list;
  updateReport := fun r store =>
    map (fun x => if (id x =? id r)%string then r else x) store;
  deleteReport := fun i store =>
    filter (fun x => negb (id x =? i)%string) store
}.

(** The stage names [isMatchingStage] knows, and the exact buckets among
    them (the tiles of the export centre). *)
Definition knownStages : list string :=
  ["all"; "staged"; "none"; "1"; "2"; "3"; "4"; "unstageable"].
Definition exactStages : list string := ["1"; "2"; "3"; "4"; "unstageable"].

(** No unit of the string is white space. *)
Definition noWhite (s : string) : Prop :=
  forall c, In c (list_ascii_of_string s) -> isWhite c = false.

(** Sample sessions over [listStore]: the component after its mount effect,
    and the same store seen by a viewer and by a nurse. *)
Definition sampleWorld : @App.World (list WoundReport) :=
  App.mount (App.initialState, [reportA; reportB]).

Definition sessionOf (role : UserRole) : @App.World (list WoundReport) :=
  (App.mkState (Some (App.User.mk "u1" "Sample User" "sample" role None))
               DASHBOARD [reportA; reportB] None "all" None "" "all",
   [reportA; reportB]).

(** Every unit of the string is white space. *)
Definition allWhite (s : string) : Prop :=
  forall c, In c (list_ascii_of_string s) -> isWhite c = true.

(** Two texts that differ in letter case and in surrounding white space
    only: lowercased, each is one common text between two runs of white
    space. *)
Definition alike (x y : string) : Prop :=
  exists l1 r1 l2 r2 core,
    toLowerCase x = (l1 ++ core ++ r1)%string /\
    toLowerCase y = (l2 ++ core ++ r2)%string /\
    allWhite l1 /\ allWhite r1 /\ allWhite l2 /\ allWhite r2.

(** Snapshot A of the example as a hurried hand would type it. *)
Definition reportA_padded : WoundReport :=
  sample "  JANE Doe " "4b " " Heel" "Stage 2" false 100.

(** * Properties *)

(** ** Substrings *)

Section StringFacts.

Local Open Scope string_scope.

Lemma append_assoc (a b c : string) : (a ++ b) ++ c = a ++ (b ++ c).
Proof.
  induction a as [|ch a IH]; simpl; [reflexivity | now rewrite IH].
Qed.

Lemma prefix_iff (x s : string) :
  String.prefix x s = true <-> exists post, s = x ++ post.
Proof.
  revert s; induction x as [|a x IH]; intros s.
  - destruct s; simpl; split; eauto.
  - destruct s as [|b s]; simpl.
    + split; [discriminate | intros [post H]; discriminate].
    + destruct (ascii_dec a b) as [->|Hab].
      * rewrite IH. split; intros [post H]; exists post.
        -- now rewrite H.
        -- now injection H.
      * split; [discriminate | intros [post H]].
        injection H as H1 H2. congruence.
Qed.

Lemma includes_iff (s x : string) : includes s x = true <-> Substring x s.
Proof.
  unfold Substring.
  induction s as [|c t IH].
  - cbn [includes]. rewrite orb_false_r, prefix_iff. split.
    + intros [post H]. now exists "", post.
    + intros [pre [post H]]. destruct pre; [|discriminate]. now exists post.
  - cbn [includes]. rewrite orb_true_iff, prefix_iff, IH. split.
    + intros [[post H] | [pre [post H]]].
      * now exists "", post.
      * exists (String c pre), post. simpl. now rewrite H.
    + intros [[|c' pre] [post H]].
      * left. now exists post.
      * right. exists pre, post. simpl in H. now injection H.
Qed.

(** A string that contains [x ++ y] contains [x]. *)
Lemma includes_app_l (s x y : string) :
  includes s (x ++ y) = true -> includes s x = true.
Proof.
  rewrite !includes_iff. intros [pre [post H]].
  exists pre, (y ++ post). now rewrite H, append_assoc.
Qed.

Lemma includes_empty (s : string) : includes s "" = true.
Proof.
  apply includes_iff. now exists "", s.
Qed.

End StringFacts.

(** ** Stage classification *)

(** C5.  A report whose [isNoStage] flag is set matches the stage ["none"],
    whatever its [typeStage] label is. *)
Theorem noStage_matches_none (r : WoundReport) :
  isNoStage r = true -> isMatchingStage r "none" = true.
Proof.
  intros H. unfold isMatchingStage. simpl. now rewrite H.
Qed.

Lemma noStage_matches_none_witness :
  isMatchingStage (sample "p" "1" "heel" "Stage IV" true 7) "none" = true.
Proof.
  apply (noStage_matches_none (sample "p" "1" "heel" "Stage IV" true 7)).
  reflexivity.
Defined.

(** C6.  A report labelled ["Stage 2"] with the flag unset matches the stages
    ["2"] and ["staged"] and does not match ["none"]. *)
Theorem stage2_label_classification (r : WoundReport) :
  typeStage r = "Stage 2" -> isNoStage r = false ->
  isMatchingStage r "2" = true /\
  isMatchingStage r "staged" = true /\
  isMatchingStage r "none" = false.
Proof.
  intros Hl Hf. unfold isMatchingStage. rewrite Hl, Hf.
  repeat split; reflexivity.
Qed.

Lemma stage2_label_classification_witness :
  isMatchingStage reportA "2" = true /\
  isMatchingStage reportA "staged" = true /\
  isMatchingStage reportA "none" = false.
Proof.
  apply (stage2_label_classification reportA); reflexivity.
Defined.

(** C3, as the specification words it, fails: the label
    ["Stage 1 / Stage II"] contains ["stage i"] and ["ii"] once lowercased,
    and matches stage ["1"] through its ["stage 1"]. *)
Lemma stage1_guard_as_stated_fails :
  ~ (forall r : WoundReport,
       includes (toLowerCase (typeStage r)) "stage i" = true ->
       isMatchingStage r "1" = true ->
       includes (toLowerCase (typeStage r)) "ii" = false).
Proof.
  intros H.
  specialize (H (sample "p" "1" "heel" "Stage 1 / Stage II" false 7)
                eq_refl eq_refl).
  discriminate H.
Qed.

(** C3, amended.  A report whose lowercased label contains ["stage i"]
    matches stage ["1"] only if the label contains ["stage 1"] or does not
    contain ["ii"]. *)
Theorem stage1_guard (r : WoundReport) :
  includes (toLowerCase (typeStage r)) "stage i" = true ->
  isMatchingStage r "1" = true ->
  includes (toLowerCase (typeStage r)) "stage 1" = true \/
  includes (toLowerCase (typeStage r)) "ii" = false.
Proof.
  intros Hi. unfold isMatchingStage. simpl.
  rewrite Hi. simpl.
  destruct (includes (toLowerCase (typeStage r)) "stage 1"); [now left|].
  simpl. rewrite negb_true_iff. now right.
Qed.

Lemma stage1_guard_witness :
  includes (toLowerCase "Stage I") "stage 1" = true \/
  includes (toLowerCase "Stage I") "ii" = false.
Proof.
  apply (stage1_guard (sample "p" "1" "heel" "Stage I" false 7));
    reflexivity.
Defined.

(** C9.  The exact buckets overlap: a lowercased label containing
    ["stage iii"] matches both ["2"] and ["3"]; one containing ["stage iv"]
    and no ["ii"] matches both ["1"] and ["4"]. *)
Theorem exact_buckets_overlap :
  (forall r : WoundReport,
     includes (toLowerCase (typeStage r)) "stage iii" = true ->
     isMatchingStage r "2" = true /\ isMatchingStage r "3" = true) /\
  (forall r : WoundReport,
     includes (toLowerCase (typeStage r)) "stage iv" = true ->
     includes (toLowerCase (typeStage r)) "ii" = false ->
     isMatchingStage r "1" = true /\ isMatchingStage r "4" = true).
Proof.
  split; intros r.
  - intros H3. unfold isMatchingStage. simpl.
    rewrite H3, (includes_app_l _ "stage ii" "i" H3).
    now rewrite !orb_true_r.
  - intros H4 Hii. unfold isMatchingStage. simpl.
    rewrite H4, Hii, (includes_app_l _ "stage i" "v" H4).
    now rewrite !orb_true_r.
Qed.

Lemma exact_buckets_overlap_witness :
  (isMatchingStage (sample "p" "1" "heel" "Stage III" false 7) "2" = true /\
   isMatchingStage (sample "p" "1" "heel" "Stage III" false 7) "3" = true) /\
  (isMatchingStage (sample "p" "1" "heel" "Stage IV" false 7) "1" = true /\
   isMatchingStage (sample "p" "1" "heel" "Stage IV" false 7) "4" = true).
Proof.
  split.
  - apply (proj1 exact_buckets_overlap
             (sample "p" "1" "heel" "Stage III" false 7)).
    reflexivity.
  - apply (proj2 exact_buckets_overlap
             (sample "p" "1" "heel" "Stage IV" false 7)); reflexivity.
Defined.

(** C10.  The exact buckets ignore the flag: a flagged report whose
    lowercased label contains ["stage 2"] matches ["2"] and ["none"] and
    does not match ["staged"]. *)
Theorem exact_bucket_ignores_flag (r : WoundReport) :
  isNoStage r = true ->
  includes (toLowerCase (typeStage r)) "stage 2" = true ->
  isMatchingStage r "2" = true /\
  isMatchingStage r "none" = true /\
  isMatchingStage r "staged" = false.
Proof.
  intros Hf H2. unfold isMatchingStage. simpl.
  rewrite Hf, H2. simpl. repeat split.
  now rewrite andb_false_r.
Qed.

Lemma exact_bucket_ignores_flag_witness :
  isMatchingStage (sample "p" "1" "heel" "Stage 2" true 7) "2" = true /\
  isMatchingStage (sample "p" "1" "heel" "Stage 2" true 7) "none" = true /\
  isMatchingStage (sample "p" "1" "heel" "Stage 2" true 7) "staged" = false.
Proof.
  apply (exact_bucket_ignores_flag (sample "p" "1" "heel" "Stage 2" true 7));
    reflexivity.
Defined.

(** ** Sorting *)

Section SortFacts.

Local Open Scope list_scope.

Lemma insert_perm (x : WoundReport) (l : list WoundReport) :
  Permutation (JsArray.insert byCreatedDesc x l) (x :: l).
Proof.
  induction l as [|y t IH]; simpl; [constructor; constructor|].
  destruct (byCreatedDesc x y <=? 0); [apply Permutation_refl|].
  eapply perm_trans; [apply perm_skip, IH | apply perm_swap].
Qed.

Lemma sort_perm (l : list WoundReport) :
  Permutation (JsArray.sort byCreatedDesc l) l.
Proof.
  induction l as [|x t IH]; simpl; [constructor|].
  eapply perm_trans; [apply insert_perm | now apply perm_skip].
Qed.

Lemma sort_In (l : list WoundReport) (r : WoundReport) :
  In r (JsArray.sort byCreatedDesc l) <-> In r l.
Proof.
  split; apply Permutation_in; [|apply Permutation_sym]; apply sort_perm.
Qed.

Lemma insert_sorted (x : WoundReport) (l : list WoundReport) :
  StronglySorted newerFirst l ->
  StronglySorted newerFirst (JsArray.insert byCreatedDesc x l).
Proof.
  induction 1 as [|y t Hs IH Hy]; simpl.
  - repeat constructor.
  - unfold byCreatedDesc at 1.
    destruct (Z.leb_spec (createdAt y - createdAt x) 0) as [Hle|Hgt].
    + constructor; [now constructor|].
      constructor; [unfold newerFirst; lia|].
      eapply Forall_impl; [|exact Hy].
      unfold newerFirst; intros; lia.
    + constructor; [exact IH|].
      eapply Permutation_Forall;
        [apply Permutation_sym, insert_perm|].
      constructor; [unfold newerFirst; lia | exact Hy].
Qed.

Lemma sort_sorted (l : list WoundReport) :
  StronglySorted newerFirst (JsArray.sort byCreatedDesc l).
Proof.
  induction l as [|x t IH]; simpl; [constructor | now apply insert_sorted].
Qed.

Lemma sorted_descending (l : list WoundReport) :
  StronglySorted newerFirst l -> descending l.
Proof.
  induction 1 as [|x t Hs IH Hx]; intros i a b Ha Hb.
  - destruct i; discriminate.
  - destruct i as [|i]; simpl in Ha, Hb.
    + injection Ha as <-.
      destruct t as [|y t']; [discriminate|]. injection Hb as <-.
      inversion Hx; subst. unfold newerFirst in *. lia.
    + now apply (IH i).
Qed.

(** In a descending list the first element a test accepts is at least as
    recent as every element the test accepts. *)
Lemma find_sorted_newest (p : WoundReport -> bool) (l : list WoundReport)
    (w : WoundReport) :
  StronglySorted newerFirst l -> find p l = Some w ->
  forall x, In x l -> p x = true -> createdAt x <= createdAt w.
Proof.
  induction 1 as [|y t Hs IH Hy]; simpl; [discriminate|].
  intros Hf x Hin Hp. destruct (p y) eqn:Hpy.
  - injection Hf as <-. destruct Hin as [<-|Hin]; [lia|].
    rewrite Forall_forall in Hy. now apply Hy.
  - destruct Hin as [<-|Hin]; [congruence|]. now apply IH.
Qed.

End SortFacts.

(** C2.  Whatever the reports, the query and the stage filter, the output of
    [processedReports] is in descending [createdAt] order: each element's
    timestamp is at least that of the element after it. *)
Theorem processedReports_descending
    (reports : list WoundReport) (searchQuery stageFilter : string) :
  descending (processedReports reports searchQuery stageFilter).
Proof.
  unfold processedReports. apply sorted_descending, sort_sorted.
Qed.

(** ** Deduplication *)

Section DedupFacts.

Local Open Scope list_scope.

Lemma has_keyed (m : JsMap.t) (k : string) :
  keyed m -> JsMap.has m k = existsb (keyIs k) (JsMap.values m).
Proof.
  unfold JsMap.has, JsMap.values, keyIs.
  induction m as [|e m IH]; intros Hk; simpl; [reflexivity|].
  rewrite (Hk e (or_introl eq_refl)). f_equal.
  apply IH. intros e' He'. apply Hk. now right.
Qed.

Lemma set_absent (m : JsMap.t) (k : string) (v : WoundReport) :
  JsMap.has m k = false -> JsMap.set m k v = m ++ [(k, v)].
Proof.
  unfold JsMap.has.
  induction m as [|e m IH]; simpl; [reflexivity|].
  rewrite orb_false_iff. intros [He Hm]. rewrite He. f_equal. now apply IH.
Qed.

Lemma keepFirst_values (m : JsMap.t) (r : WoundReport) :
  keyed m ->
  keyed (keepFirst m r) /\
  JsMap.values (keepFirst m r) = keepFirstValue (JsMap.values m) r.
Proof.
  intros Hk. unfold keepFirst, keepFirstValue.
  rewrite <- (has_keyed m (woundKey r) Hk).
  destruct (JsMap.has m (woundKey r)) eqn:Hh; simpl; [now split|].
  rewrite (set_absent _ _ _ Hh). split.
  - intros e He. apply in_app_or in He. destruct He as [He|[<-|[]]]; auto.
  - unfold JsMap.values. now rewrite map_app.
Qed.

Lemma fold_keepFirst_values (l : list WoundReport) (m : JsMap.t) :
  keyed m ->
  JsMap.values (fold_left keepFirst l m) =
  fold_left keepFirstValue l (JsMap.values m).
Proof.
  revert m. induction l as [|r l IH]; intros m Hk; simpl; [reflexivity|].
  destruct (keepFirst_values m r Hk) as [Hk' Hv].
  now rewrite (IH _ Hk'), Hv.
Qed.

Lemma existsb_filter_nil (p : WoundReport -> bool) (l : list WoundReport) :
  existsb p l = false <-> filter p l = [].
Proof.
  induction l as [|x l IH]; simpl; [tauto|].
  destruct (p x); simpl; [split; discriminate | exact IH].
Qed.

(** Under a key the fold keeps what the map already has, and otherwise the
    first report of the list with that key. *)
Lemma fold_keepFirstValue_filter (k : string) (l vs : list WoundReport) :
  filter (keyIs k) (fold_left keepFirstValue l vs) =
  match filter (keyIs k) vs with
  | [] => match find (keyIs k) l with Some w => [w] | None => [] end
  | kept => kept
  end.
Proof.
  revert vs. induction l as [|r l IH]; intros vs; simpl.
  - now destruct (filter (keyIs k) vs).
  - rewrite IH. unfold keepFirstValue.
    destruct (existsb (keyIs (woundKey r)) vs) eqn:Hex.
    + destruct (keyIs k r) eqn:Hr; [|reflexivity].
      apply String.eqb_eq in Hr. subst k.
      destruct (filter (keyIs (woundKey r)) vs) eqn:Hf; [|reflexivity].
      apply existsb_filter_nil in Hf. congruence.
    + rewrite filter_app. simpl.
      destruct (keyIs k r) eqn:Hr.
      * apply String.eqb_eq in Hr. subst k.
        apply existsb_filter_nil in Hex. now rewrite Hex.
      * rewrite app_nil_r. reflexivity.
Qed.

Lemma uniqueWounds_filter (k : string) (reports : list WoundReport) :
  filter (keyIs k) (uniqueWounds reports) =
  match find (keyIs k) (sortedAll reports) with
  | Some w => [w]
  | None => []
  end.
Proof.
  unfold uniqueWounds, woundMap.
  rewrite fold_keepFirst_values by (intros e []).
  apply (fold_keepFirstValue_filter k (sortedAll reports) []).
Qed.

(** Among the reports that share a key the deduplication step retains
    exactly one, a report of the input with the greatest timestamp of the
    group. *)
Lemma uniqueWounds_one_per_key (reports : list WoundReport) (r : WoundReport) :
  In r reports ->
  exists w,
    filter (keyIs (woundKey r)) (uniqueWounds reports) = [w] /\
    In w reports /\ woundKey w = woundKey r /\
    forall x, In x reports -> woundKey x = woundKey r ->
              createdAt x <= createdAt w.
Proof.
  intros Hin. rewrite uniqueWounds_filter.
  destruct (find (keyIs (woundKey r)) (sortedAll reports)) as [w|] eqn:Hf.
  - exists w. destruct (find_some _ _ Hf) as [Hw Hkw].
    apply (proj1 (sort_In reports w)) in Hw. apply String.eqb_eq in Hkw.
    split; [reflexivity|]. split; [exact Hw|]. split; [exact Hkw|].
    intros x Hx Hkx.
    apply (find_sorted_newest _ _ _ (sort_sorted reports) Hf).
    + now apply (proj2 (sort_In reports x)).
    + now apply String.eqb_eq.
  - exfalso.
    assert (Hr : In r (sortedAll reports))
      by now apply (proj2 (sort_In reports r)).
    pose proof (find_none _ _ Hf r Hr) as Hn.
    unfold keyIs in Hn. now rewrite String.eqb_refl in Hn.
Qed.

(** Reports of one wound have one key. *)
Lemma sameWound_key (a b : WoundReport) :
  sameWound a b = true -> woundKey a = woundKey b.
Proof.
  unfold sameWound, woundIdentity, woundKey.
  rewrite !andb_true_iff, !String.eqb_eq. now intros [[-> ->] ->].
Qed.

Lemma includes_tail (c : ascii) (t x : string) :
  includes (String c t) x = false -> includes t x = false.
Proof.
  cbn [includes]. rewrite orb_false_iff. tauto.
Qed.

Lemma includes_bar_head (t : string) : includes (String "|" t) "|" = true.
Proof.
  cbn [includes]. simpl. now destruct t.
Qed.

(** A bar-free field is read back from the front of a joined string. *)
Lemma join_bar_inj (a a' b b' : string) :
  includes a "|" = false -> includes a' "|" = false ->
  (a ++ "|" ++ b = a' ++ "|" ++ b')%string -> a = a' /\ b = b'.
Proof.
  revert a'. induction a as [|c a IH]; intros [|c' a'] Ha Ha' H; simpl in H.
  - injection H as ->. now split.
  - injection H as <- _. now rewrite includes_bar_head in Ha'.
  - injection H as -> _. now rewrite includes_bar_head in Ha.
  - injection H as -> H.
    destruct (IH a' (includes_tail _ _ _ Ha) (includes_tail _ _ _ Ha') H)
      as [-> ->].
    now split.
Qed.

(** Among bar-free reports the key is the wound identity. *)
Lemma sameWound_keyIs (a b : WoundReport) :
  barFree a = true -> barFree b = true ->
  sameWound a b = keyIs (woundKey a) b.
Proof.
  unfold barFree. rewrite !andb_true_iff, !negb_true_iff.
  intros [Han Har] [Hbn Hbr].
  unfold keyIs.
  destruct (String.eqb_spec (woundKey b) (woundKey a)) as [Hk|Hk].
  - unfold woundKey in Hk.
    destruct (join_bar_inj _ _ _ _ Hbn Han Hk) as [Hn Hrest].
    destruct (join_bar_inj _ _ _ _ Hbr Har Hrest) as [Hr Hs].
    unfold sameWound, woundIdentity.
    now rewrite Hn, Hr, Hs, !String.eqb_refl.
  - destruct (sameWound a b) eqn:Hs; [|reflexivity].
    apply sameWound_key in Hs. congruence.
Qed.

Lemma uniqueWounds_incl (reports : list WoundReport) (w : WoundReport) :
  In w (uniqueWounds reports) -> In w reports.
Proof.
  intros Hw.
  assert (Hf : In w (filter (keyIs (woundKey w)) (uniqueWounds reports))).
  { apply filter_In. split; [exact Hw|]. apply String.eqb_refl. }
  rewrite uniqueWounds_filter in Hf.
  destruct (find (keyIs (woundKey w)) (sortedAll reports)) as [v|] eqn:Hv;
    [|contradiction].
  destruct Hf as [->|[]].
  apply find_some in Hv. now apply (proj1 (sort_In reports w)).
Qed.

(** X9.  Where every report is bar-free, the deduplication step retains
    exactly one report of each wound, one with the greatest timestamp of the
    wound's snapshots. *)
Lemma uniqueWounds_one_per_wound
    (reports : list WoundReport) (r : WoundReport) :
  (forall x, In x reports -> barFree x = true) ->
  In r reports ->
  exists w,
    filter (sameWound r) (uniqueWounds reports) = [w] /\
    In w reports /\ sameWound r w = true /\
    forall x, In x reports -> sameWound r x = true ->
              createdAt x <= createdAt w.
Proof.
  intros Hfree Hr.
  destruct (uniqueWounds_one_per_key reports r Hr) as [w [Hf [Hw [Hk Hmax]]]].
  exists w.
  split.
  { rewrite <- Hf. apply filter_ext_in. intros x Hx.
    apply sameWound_keyIs; auto using uniqueWounds_incl. }
  split; [exact Hw|].
  split.
  { rewrite sameWound_keyIs by auto. now apply String.eqb_eq. }
  intros x Hx Hs. apply Hmax; [exact Hx|].
  symmetry. now apply sameWound_key.
Qed.

End DedupFacts.

(** C1 at the reports [barLeft] and [barRight].  They are two wounds (the
    patient names and the rooms differ) with one key, ["a|b|c|s"]: the
    deduplication step keeps the newer one only, and the wound of [barLeft]
    has no report in its output. *)
Theorem dedup_merges_wounds_with_bars :
  sameWound barLeft barRight = false /\
  woundKey barLeft = woundKey barRight /\
  uniqueWounds [barLeft; barRight] = [barRight] /\
  filter (sameWound barLeft) (uniqueWounds [barLeft; barRight]) = [].
Proof.
  repeat split; reflexivity.
Qed.

(** The example of the specification: with the snapshot A (Jane Doe, 4B,
    Heel, created 100, Stage 2) and the snapshot B (jane doe, 4b, heel,
    created 200, Stage 3), an empty query and the filter ["all"],
    [processedReports] returns [B] alone, in either input order, and B
    matches stage ["3"]. *)
Lemma jane_doe_example (A B : WoundReport) :
  patientName A = "Jane Doe" -> roomNo A = "4B" -> site A = "Heel" ->
  createdAt A = 100 -> typeStage A = "Stage 2" ->
  patientName B = "jane doe" -> roomNo B = "4b" -> site B = "heel" ->
  createdAt B = 200 -> typeStage B = "Stage 3" ->
  processedReports [A; B] "" "all" = [B] /\
  processedReports [B; A] "" "all" = [B] /\
  isMatchingStage B "3" = true.
Proof.
  destruct A, B; simpl. intros; subst.
  repeat split; vm_compute; reflexivity.
Qed.

(** ** Search *)

Lemma processedReports_In
    (reports : list WoundReport) (searchQuery stageFilter : string)
    (r : WoundReport) :
  In r (processedReports reports searchQuery stageFilter) <->
  In r (uniqueWounds reports) /\
  queryMatch r searchQuery = true /\ isMatchingStage r stageFilter = true.
Proof.
  unfold processedReports.
  split.
  - intros H.
    apply (Permutation_in _ (sort_perm _)) in H.
    apply filter_In in H. unfold passes in H.
    now rewrite andb_true_iff in H.
  - intros [Hu [Hq Hs]].
    apply (Permutation_in _ (Permutation_sym (sort_perm _))).
    apply filter_In. unfold passes. now rewrite Hq, Hs.
Qed.

(** C7.  A report passes the search predicate exactly when the lowercased
    query is a substring of its lowercased patient name, room number,
    facility or site; a retained report is in the output under the filter
    ["all"] exactly when it passes; the empty query always passes; and the
    query ["4b"] matches a report whose room number is ["4B"]. *)
Theorem search_predicate :
  (forall (r : WoundReport) (searchQuery : string),
     queryMatch r searchQuery = true <->
     Substring (toLowerCase searchQuery) (toLowerCase (patientName r)) \/
     Substring (toLowerCase searchQuery) (toLowerCase (roomNo r)) \/
     Substring (toLowerCase searchQuery) (toLowerCase (facHosp r)) \/
     Substring (toLowerCase searchQuery) (toLowerCase (site r))) /\
  (forall (reports : list WoundReport) (r : WoundReport)
          (searchQuery : string),
     In r (uniqueWounds reports) ->
     (In r (processedReports reports searchQuery "all") <->
      queryMatch r searchQuery = true)) /\
  (forall r : WoundReport, queryMatch r "" = true) /\
  (forall r : WoundReport, roomNo r = "4B" -> queryMatch r "4b" = true).
Proof.
  split; [|split; [|split]].
  - intros r q. unfold queryMatch.
    rewrite !orb_true_iff, !includes_iff. tauto.
  - intros reports r q Hu. rewrite processedReports_In.
    unfold isMatchingStage. simpl. tauto.
  - intros r. unfold queryMatch. simpl toLowerCase.
    now rewrite includes_empty.
  - intros r Hr. unfold queryMatch. rewrite Hr.
    replace (includes (toLowerCase "4B") (toLowerCase "4b")) with true
      by reflexivity.
    now rewrite orb_true_r.
Qed.

Lemma search_predicate_witness :
  (In reportB (processedReports [reportA; reportB] "4b" "all") <->
   queryMatch reportB "4b" = true) /\
  queryMatch reportA "4b" = true.
Proof.
  split.
  - apply (proj1 (proj2 search_predicate) [reportA; reportB] reportB "4b").
    vm_compute. now left.
  - apply (proj2 (proj2 (proj2 search_predicate)) reportA). reflexivity.
Defined.

(** ** The store *)

Section StoreFacts.

Local Open Scope list_scope.
Local Open Scope nat_scope.

Lemma update_last {A} (l : list A) (x y : A) :
  update (l ++ [x]) (List.length l) y = l ++ [y].
Proof.
  induction l as [|z l IH]; simpl; [reflexivity | now rewrite IH].
Qed.

Lemma nth_error_last {A} (l : list A) (x : A) :
  nth_error (l ++ [x]) (List.length l) = Some x.
Proof.
  rewrite nth_error_app2 by lia. now rewrite Nat.sub_diag.
Qed.

(** Reading or writing the last cell of the store. *)
Ltac store_simpl :=
  repeat progress
    (cbn [arrays maps]; rewrite ?nth_error_last, ?update_last).

Lemma skipn_cons_nth {A} (l : list A) (i : nat) (x : A) :
  nth_error l i = Some x -> skipn i l = x :: skipn (S i) l.
Proof.
  revert l; induction i as [|i IH]; intros [|y l] H; try discriminate.
  - now injection H as ->.
  - apply (IH l H).
Qed.

Lemma skipn_nil_nth {A} (l : list A) (i : nat) :
  nth_error l i = None -> skipn i l = [] /\ skipn (S i) l = [].
Proof.
  intros H. apply nth_error_None in H.
  split; apply skipn_all2; lia.
Qed.

Lemma keepFirst_m_run
    (arrs : list (list WoundReport)) (ms : list JsMap.t) (mp : JsMap.t)
    (r : WoundReport) :
  keepFirst_m (List.length ms) r (mkHeap arrs (ms ++ [mp])) =
  Some (tt, mkHeap arrs (ms ++ [keepFirst mp r])).
Proof.
  unfold keepFirst_m, mapHas, mapSet, readMap, writeMap, bind, ret, keepFirst.
  store_simpl.
  destruct (JsMap.has mp (woundKey r)); cbn [negb]; [reflexivity|].
  now store_simpl.
Qed.

(** The loop reads the array and folds [keepFirst] into the map; the arrays
    stay as they are. *)
Lemma forEachFrom_keepFirst
    (arrs : list (list WoundReport)) (ms : list JsMap.t) (a : ref)
    (ys : list WoundReport) (n i : nat) (mp : JsMap.t) :
  nth_error arrs a = Some ys ->
  forEachFrom a (keepFirst_m (List.length ms)) i n (mkHeap arrs (ms ++ [mp])) =
  Some (tt, mkHeap arrs
              (ms ++ [fold_left keepFirst (firstn n (skipn i ys)) mp])).
Proof.
  intros Ha. revert i mp.
  induction n as [|n IH]; intros i mp; [reflexivity|].
  cbn [forEachFrom]. unfold bind at 1. unfold readArray at 1.
  cbn [arrays]. rewrite Ha. unfold bind at 1.
  destruct (nth_error ys i) as [x|] eqn:Hx.
  - rewrite keepFirst_m_run, IH.
    now rewrite (skipn_cons_nth _ _ _ Hx).
  - unfold ret at 1. rewrite IH.
    destruct (skipn_nil_nth _ _ Hx) as [-> ->].
    now rewrite !firstn_nil.
Qed.

Lemma forEach_keepFirst
    (arrs : list (list WoundReport)) (ms : list JsMap.t) (a : ref)
    (ys : list WoundReport) (mp : JsMap.t) :
  nth_error arrs a = Some ys ->
  forEach a (keepFirst_m (List.length ms)) (mkHeap arrs (ms ++ [mp])) =
  Some (tt, mkHeap arrs (ms ++ [fold_left keepFirst ys mp])).
Proof.
  intros Ha. unfold forEach, bind, readArray. cbn [arrays]. rewrite Ha.
  rewrite (forEachFrom_keepFirst _ _ _ _ _ _ _ Ha).
  now rewrite skipn_O, firstn_all.
Qed.

(** One run of [processedReports_m], exactly: it allocates the map and three
    arrays (the sorted copy, the unique wounds, the result) and writes to
    nothing that was there before. *)
Lemma processedReports_m_run
    (h : heap) (reports : ref) (xs : list WoundReport)
    (searchQuery stageFilter : string) :
  nth_error (arrays h) reports = Some xs ->
  processedReports_m reports searchQuery stageFilter h =
  Some (List.length (arrays h) + 2,
        mkHeap (arrays h ++
                  [sortedAll xs; uniqueWounds xs;
                   processedReports xs searchQuery stageFilter])
               (maps h ++ [woundMap xs])).
Proof.
  intros Hx. destruct h as [arrs ms]. cbn [arrays maps] in *.
  unfold processedReports_m.
  unfold bind at 1. unfold newMap. cbn [arrays maps].
  unfold bind at 1. unfold spread, bind at 1, readArray at 1.
  cbn [arrays maps]. rewrite Hx. unfold newArray at 1. cbn [arrays maps].
  unfold bind at 1. unfold sortInPlace, bind at 1, readArray at 1.
  store_simpl.
  unfold bind at 1. unfold writeArray at 1. store_simpl. unfold ret at 1.
  unfold bind at 1.
  rewrite (forEach_keepFirst _ _ _ (JsArray.sort byCreatedDesc xs))
    by apply nth_error_last.
  unfold bind at 1. unfold arrayFromValues, bind at 1, readMap.
  store_simpl.
  unfold newArray at 1. cbn [arrays maps].
  unfold bind at 1. unfold filterNew, bind at 1, readArray at 1.
  store_simpl.
  unfold newArray at 1. store_simpl.
  unfold sortInPlace, bind, readArray, writeArray. store_simpl.
  unfold ret. rewrite !length_app. cbn [List.length].
  rewrite <- !app_assoc. cbn [app].
  unfold processedReports, uniqueWounds, woundMap, sortedAll.
  do 2 f_equal. lia.
Qed.

End StoreFacts.

Lemma nth_error_fresh {A} (l : list A) (x y z : A) :
  nth_error (l ++ [x; y; z]) (List.length l + 2) = Some z.
Proof.
  rewrite nth_error_app2 by lia.
  now replace (List.length l + 2 - List.length l)%nat with 2%nat by lia.
Qed.

(** C8.  A run of [processedReports] on a store that holds the list [xs] at
    [reports] succeeds and leaves that list, and every array and map
    allocated before the run, as they were: the arrays it sorts in place are
    its own copies.  The result is a fresh array holding
    [processedReports xs searchQuery stageFilter], so a second run on the
    same list, query and filter, from any store, returns the same reports. *)
Theorem processedReports_no_mutation
    (h : heap) (reports : ref) (xs : list WoundReport)
    (searchQuery stageFilter : string) :
  nth_error (arrays h) reports = Some xs ->
  exists (out : ref) (h' : heap),
    processedReports_m reports searchQuery stageFilter h = Some (out, h') /\
    nth_error (arrays h') reports = Some xs /\
    (forall a, (a < List.length (arrays h))%nat ->
               nth_error (arrays h') a = nth_error (arrays h) a) /\
    (forall m, (m < List.length (maps h))%nat ->
               nth_error (maps h') m = nth_error (maps h) m) /\
    nth_error (arrays h') out =
      Some (processedReports xs searchQuery stageFilter) /\
    (forall (g : heap) (reports' : ref),
       nth_error (arrays g) reports' = Some xs ->
       exists (out' : ref) (g' : heap),
         processedReports_m reports' searchQuery stageFilter g =
           Some (out', g') /\
         nth_error (arrays g') out' = nth_error (arrays h') out).
Proof.
  intros Hx.
  eexists. eexists.
  split; [apply (processedReports_m_run h reports xs _ _ Hx)|].
  cbn [arrays maps].
  assert (Hlt : (reports < List.length (arrays h))%nat)
    by (apply nth_error_Some; congruence).
  split; [now rewrite nth_error_app1|].
  split; [intros a Ha; now apply nth_error_app1|].
  split; [intros m Hm; now apply nth_error_app1|].
  split; [apply nth_error_fresh|].
  intros g reports' Hg.
  eexists. eexists.
  split; [apply (processedReports_m_run g reports' xs _ _ Hg)|].
  cbn [arrays maps]. now rewrite !nth_error_fresh.
Qed.

Lemma processedReports_no_mutation_witness :
  exists (out : ref) (h' : heap),
    processedReports_m 0%nat "4b" "staged"
      (mkHeap [[reportA; reportB]] []) = Some (out, h') /\
    nth_error (arrays h') 0%nat = Some [reportA; reportB] /\
    nth_error (arrays h') out = Some [reportB].
Proof.
  destruct (processedReports_no_mutation
              (mkHeap [[reportA; reportB]] []) 0%nat [reportA; reportB]
              "4b" "staged" eq_refl)
    as [out [h' [Hrun [Hin [_ [_ [Hout _]]]]]]].
  exists out, h'. repeat split; assumption.
Defined.

(** * Further properties of the component *)

(** ** Stage filters *)

Section StageFacts.

Local Open Scope list_scope.

Lemma filter_none {A} (p : A -> bool) (l : list A) :
  (forall x, In x l -> p x = false) -> filter p l = [].
Proof.
  induction l as [|x l IH]; intros H; simpl; [reflexivity|].
  rewrite (H x (or_introl eq_refl)). apply IH. intros y Hy. apply H. now right.
Qed.

Lemma filter_every {A} (p : A -> bool) (l : list A) :
  (forall x, In x l -> p x = true) -> filter p l = l.
Proof.
  induction l as [|x l IH]; intros H; simpl; [reflexivity|].
  rewrite (H x (or_introl eq_refl)). f_equal. apply IH.
  intros y Hy. apply H. now right.
Qed.

Lemma filter_length_split {A} (p : A -> bool) (l : list A) :
  (List.length (filter p l) +
   List.length (filter (fun x => negb (p x)) l))%nat = List.length l.
Proof.
  induction l as [|x l IH]; simpl; [reflexivity|].
  destruct (p x); simpl; lia.
Qed.

Lemma filter_sorted (p : WoundReport -> bool) (l : list WoundReport) :
  StronglySorted newerFirst l -> StronglySorted newerFirst (filter p l).
Proof.
  induction 1 as [|x l Hs IH Hx]; simpl; [constructor|].
  destruct (p x); [|exact IH].
  constructor; [exact IH|].
  rewrite Forall_forall in *. intros y Hy. apply Hx.
  now apply filter_In in Hy.
Qed.

Lemma none_is_not_staged (r : WoundReport) :
  isMatchingStage r "none" = negb (isMatchingStage r "staged").
Proof.
  unfold isMatchingStage. simpl.
  now destruct (isAnyStage _), (isNoStage r).
Qed.

(** A report in an exact bucket has a label [isAnyStage] accepts. *)
Lemma exact_isAnyStage (r : WoundReport) (stage : string) :
  In stage exactStages -> isMatchingStage r stage = true ->
  isAnyStage (toLowerCase (typeStage r)) = true.
Proof.
  unfold exactStages, isMatchingStage, isAnyStage.
  intros [<-|[<-|[<-|[<-|[<-|[]]]]]]; simpl; intros H.
  - apply orb_true_iff in H. destruct H as [H|H].
    + now rewrite H.
    + apply andb_true_iff in H. destruct H as [H _].
      rewrite H. now rewrite !orb_true_r.
  - apply orb_true_iff in H. destruct H as [H|H];
      rewrite H; now rewrite ?orb_true_r.
  - apply orb_true_iff in H. destruct H as [H|H];
      rewrite H; now rewrite ?orb_true_r.
  - apply orb_true_iff in H. destruct H as [H|H];
      rewrite H; now rewrite ?orb_true_r.
  - rewrite H. now rewrite ?orb_true_r.
Qed.

End StageFacts.

(** X1.  The filters ["staged"] and ["none"] are complementary: a report
    matches ["none"] exactly when it does not match ["staged"], so over any
    list the two counts add up to the length of the list. *)
Theorem staged_none_partition :
  (forall r : WoundReport,
     isMatchingStage r "none" = negb (isMatchingStage r "staged")) /\
  (forall processed : list WoundReport,
     (List.length (getStageReports processed "staged") +
      List.length (getStageReports processed "none"))%nat =
     List.length processed).
Proof.
  split; [exact none_is_not_staged|].
  intros processed. unfold getStageReports.
  rewrite <- (filter_length_split
                (fun r => isMatchingStage r "staged") processed).
  f_equal. f_equal. apply filter_ext. intros r. apply none_is_not_staged.
Qed.

(** X2.  A report that matches one of the exact buckets ["1"], ["2"], ["3"],
    ["4"], ["unstageable"] matches ["staged"] exactly when its flag is
    unset, and matches ["none"] exactly when its flag is set. *)
Theorem exact_bucket_is_staged (r : WoundReport) (stage : string) :
  In stage exactStages -> isMatchingStage r stage = true ->
  isMatchingStage r "staged" = negb (isNoStage r) /\
  isMatchingStage r "none" = isNoStage r.
Proof.
  intros Hs Hm. pose proof (exact_isAnyStage r stage Hs Hm) as Hany.
  unfold isMatchingStage. simpl. rewrite Hany. simpl.
  split; [reflexivity | apply orb_false_r].
Qed.

Lemma exact_bucket_is_staged_witness :
  isMatchingStage reportB "staged" = negb (isNoStage reportB) /\
  isMatchingStage reportB "none" = isNoStage reportB.
Proof.
  apply (exact_bucket_is_staged reportB "3").
  - simpl. auto.
  - reflexivity.
Defined.

(** X3.  A stage name outside the eight the function knows matches no
    report (the names are case-sensitive), so as a stage filter it empties
    [processedReports], and [getStageReports] is empty for it. *)
Theorem unknown_stage_matches_nothing (stage : string) :
  ~ In stage knownStages ->
  (forall r : WoundReport, isMatchingStage r stage = false) /\
  (forall (reports : list WoundReport) (searchQuery : string),
     processedReports reports searchQuery stage = []) /\
  (forall processed : list WoundReport,
     getStageReports processed stage = []).
Proof.
  intros Hn.
  assert (Hr : forall r, isMatchingStage r stage = false).
  { intros r. unfold isMatchingStage.
    repeat match goal with
    | |- (if (stage =? ?k)%string then _ else _) = false =>
        destruct (String.eqb_spec stage k) as [->|_];
        [exfalso; apply Hn; unfold knownStages; simpl; tauto|]
    end.
    reflexivity. }
  split; [exact Hr|]. split.
  - intros reports q. unfold processedReports.
    rewrite filter_none; [reflexivity|].
    intros x _. unfold passes. rewrite Hr. apply andb_false_r.
  - intros processed. unfold getStageReports.
    apply filter_none. intros x _. apply Hr.
Qed.

Lemma unknown_stage_matches_nothing_witness :
  isMatchingStage reportA "Staged" = false /\
  processedReports [reportA; reportB] "" "Staged" = [] /\
  getStageReports [reportA; reportB] "Staged" = [].
Proof.
  assert (Hn : ~ In "Staged" knownStages).
  { unfold knownStages. simpl. intros H.
    repeat (destruct H as [H|H]; [discriminate H|]). exact H. }
  destruct (unknown_stage_matches_nothing "Staged" Hn) as [H1 [H2 H3]].
  split; [apply H1|]. split; [apply H2 | apply H3].
Defined.

(** X4.  The exact buckets do not cover the staged wounds.  A label that
    [isAnyStage] accepts is in none of the five exact buckets exactly when,
    lowercased, it contains ["stage i"] and ["ii"] and none of ["stage 1"],
    ["stage 2"], ["stage ii"], ["stage 3"], ["stage 4"], ["stage iv"],
    ["unstageable"]: the ["ii"] guard of bucket 1 rejects it and no other
    bucket takes it. *)
Theorem staged_outside_exact_buckets (r : WoundReport) :
  let s := toLowerCase (typeStage r) in
  (isAnyStage s = true /\
   forall stage, In stage exactStages -> isMatchingStage r stage = false) <->
  (includes s "stage i" = true /\ includes s "ii" = true /\
   includes s "stage 1" = false /\ includes s "stage 2" = false /\
   includes s "stage ii" = false /\ includes s "stage 3" = false /\
   includes s "stage 4" = false /\ includes s "stage iv" = false /\
   includes s "unstageable" = false).
Proof.
  intros s.
  assert (H32 : includes s "stage iii" = true -> includes s "stage ii" = true)
    by apply (includes_app_l s "stage ii" "i").
  split.
  - intros [Hany Hall].
    pose proof (Hall "1" (or_introl eq_refl)) as H1.
    pose proof (Hall "2" (or_intror (or_introl eq_refl))) as H2.
    pose proof (Hall "3" (or_intror (or_intror (or_introl eq_refl)))) as H3.
    pose proof (Hall "4"
                  (or_intror (or_intror (or_intror (or_introl eq_refl)))))
      as H4.
    pose proof (Hall "unstageable"
                  (or_intror (or_intror (or_intror
                     (or_intror (or_introl eq_refl)))))) as H5.
    unfold isMatchingStage in H1, H2, H3, H4, H5.
    simpl in H1, H2, H3, H4, H5. fold s in H1, H2, H3, H4, H5.
    apply orb_false_iff in H1, H2, H3, H4.
    destruct H1 as [H1 H1'], H2 as [H2 H2'], H3 as [H3 H3'], H4 as [H4 H4'].
    unfold isAnyStage in Hany.
    rewrite H1, H2, H2', H3, H3', H4, H4', H5 in Hany.
    rewrite !orb_false_r in Hany. simpl in Hany.
    rewrite Hany in H1'. simpl in H1'. apply negb_false_iff in H1'.
    repeat split; assumption.
  - intros [Hi [Hii [H1 [H2 [H2' [H3 [H4 [H4' H5]]]]]]]].
    assert (H3' : includes s "stage iii" = false).
    { destruct (includes s "stage iii"); [|reflexivity].
      rewrite H32 in H2' by reflexivity. discriminate. }
    split.
    + unfold isAnyStage. rewrite Hi. now rewrite orb_true_r.
    + unfold exactStages, isMatchingStage.
      intros stage [<-|[<-|[<-|[<-|[<-|[]]]]]]; simpl; fold s;
        rewrite ?H1, ?H2, ?H2', ?H3, ?H3', ?H4, ?H4', ?H5, ?Hi, ?Hii;
        reflexivity.
Qed.

Lemma staged_outside_exact_buckets_witness :
  isAnyStage (toLowerCase "Stage I (Hawaii)") = true /\
  forall stage, In stage exactStages ->
    isMatchingStage (sample "p" "1" "heel" "Stage I (Hawaii)" false 7) stage
    = false.
Proof.
  apply (proj2 (staged_outside_exact_buckets
                  (sample "p" "1" "heel" "Stage I (Hawaii)" false 7))).
  repeat split; reflexivity.
Defined.

(** X5.  [getStageReports] for the stage that is the current stage filter
    returns the whole of [processedReports]; so does ["all"]. *)
Theorem getStageReports_same_filter
    (reports : list WoundReport) (searchQuery stageFilter : string) :
  getStageReports (processedReports reports searchQuery stageFilter)
                  stageFilter =
    processedReports reports searchQuery stageFilter /\
  getStageReports (processedReports reports searchQuery stageFilter) "all" =
    processedReports reports searchQuery stageFilter.
Proof.
  unfold getStageReports. split; apply filter_every; intros r Hr.
  - now apply processedReports_In in Hr.
  - reflexivity.
Qed.

(** X6.  The list [getStageReports] hands to the stage export is still in
    descending [createdAt] order. *)
Theorem getStageReports_descending
    (reports : list WoundReport) (searchQuery stageFilter stage : string) :
  descending
    (getStageReports (processedReports reports searchQuery stageFilter) stage).
Proof.
  unfold getStageReports, processedReports.
  apply sorted_descending, filter_sorted, sort_sorted.
Qed.

(** X7.  The stage tiles count within the filtered list.  Under the stage
    filter ["staged"] the tile for ["none"] is empty, under ["none"] the
    count for ["staged"] is empty, and under ["none"] every report an exact
    bucket still counts has its [isNoStage] flag set. *)
Theorem stage_tiles_under_filter
    (reports : list WoundReport) (searchQuery : string) :
  getStageReports (processedReports reports searchQuery "staged") "none"
    = [] /\
  getStageReports (processedReports reports searchQuery "none") "staged"
    = [] /\
  (forall (stage : string) (r : WoundReport),
     In stage exactStages ->
     In r (getStageReports (processedReports reports searchQuery "none")
                           stage) ->
     isNoStage r = true).
Proof.
  unfold getStageReports. repeat split.
  - apply filter_none. intros r Hr.
    apply processedReports_In in Hr. destruct Hr as [_ [_ Hs]].
    now rewrite none_is_not_staged, Hs.
  - apply filter_none. intros r Hr.
    apply processedReports_In in Hr. destruct Hr as [_ [_ Hs]].
    rewrite none_is_not_staged in Hs. now apply negb_true_iff in Hs.
  - intros stage r Hst Hr. apply filter_In in Hr. destruct Hr as [Hr Hm].
    apply processedReports_In in Hr. destruct Hr as [_ [_ Hs]].
    pose proof (exact_isAnyStage r stage Hst Hm) as Hany.
    unfold isMatchingStage in Hs. simpl in Hs. rewrite Hany in Hs.
    now rewrite orb_false_r in Hs.
Qed.

Lemma stage_tiles_under_filter_witness :
  isNoStage (sample "p" "1" "heel" "Stage 2" true 7) = true.
Proof.
  destruct (stage_tiles_under_filter
              [sample "p" "1" "heel" "Stage 2" true 7] "") as [_ [_ H]].
  apply (H "2" (sample "p" "1" "heel" "Stage 2" true 7)).
  - unfold exactStages. simpl. auto.
  - vm_compute. now left.
Defined.

(** ** Deduplication, further *)

Section DedupMore.

Local Open Scope list_scope.

Lemma filter_short_NoDup (l : list WoundReport) :
  (forall k, (List.length (filter (keyIs k) l) <= 1)%nat) ->
  NoDup (map woundKey l).
Proof.
  induction l as [|x l IH]; intros H; simpl; constructor.
  - intros Hin. apply in_map_iff in Hin. destruct Hin as [y [Hy Hin]].
    specialize (H (woundKey x)). simpl in H. unfold keyIs at 1 in H.
    rewrite String.eqb_refl in H. simpl in H.
    assert (Hf : In y (filter (keyIs (woundKey x)) l)).
    { apply filter_In. split; [exact Hin|]. now apply String.eqb_eq. }
    destruct (filter (keyIs (woundKey x)) l); [contradiction|].
    simpl in H. lia.
  - apply IH. intros k. specialize (H k). simpl in H.
    destruct (keyIs k x); simpl in H; lia.
Qed.

Lemma uniqueWounds_keys_NoDup (reports : list WoundReport) :
  NoDup (map woundKey (uniqueWounds reports)).
Proof.
  apply filter_short_NoDup. intros k. rewrite uniqueWounds_filter.
  destruct (find (keyIs k) (sortedAll reports)); simpl; lia.
Qed.

Lemma sort_of_sorted (l : list WoundReport) :
  StronglySorted newerFirst l -> JsArray.sort byCreatedDesc l = l.
Proof.
  induction 1 as [|x t Hs IH Hx]; simpl; [reflexivity|].
  rewrite IH. destruct t as [|y t']; [reflexivity|].
  simpl. inversion Hx as [|? ? Hxy _]; subst.
  unfold byCreatedDesc, newerFirst in *.
  destruct (Z.leb_spec (createdAt y - createdAt x) 0); [reflexivity | lia].
Qed.

Lemma sorted_drop_middle (a b : list WoundReport) (x : WoundReport) :
  StronglySorted newerFirst (a ++ x :: b) ->
  StronglySorted newerFirst (a ++ b).
Proof.
  induction a as [|y a IH]; simpl; intros H.
  - now inversion H.
  - inversion H as [|? ? Hs Hy]; subst. constructor; [now apply IH|].
    rewrite Forall_forall in *. intros z Hz. apply Hy.
    apply in_app_or in Hz. apply in_or_app.
    destruct Hz; [now left | right; now right].
Qed.

Lemma fold_keepFirstValue_sorted (l vs : list WoundReport) :
  StronglySorted newerFirst (vs ++ l) ->
  StronglySorted newerFirst (fold_left keepFirstValue l vs).
Proof.
  revert vs. induction l as [|x l IH]; intros vs H; simpl.
  - now rewrite app_nil_r in H.
  - apply IH. unfold keepFirstValue.
    destruct (existsb (keyIs (woundKey x)) vs).
    + now apply sorted_drop_middle in H.
    + now rewrite <- app_assoc.
Qed.

Lemma uniqueWounds_sorted (reports : list WoundReport) :
  StronglySorted newerFirst (uniqueWounds reports).
Proof.
  unfold uniqueWounds, woundMap.
  rewrite fold_keepFirst_values by (intros e []).
  apply fold_keepFirstValue_sorted. apply sort_sorted.
Qed.

Lemma fold_keepFirstValue_distinct (l vs : list WoundReport) :
  NoDup (map woundKey (vs ++ l)) ->
  fold_left keepFirstValue l vs = vs ++ l.
Proof.
  revert vs. induction l as [|x l IH]; intros vs H; simpl.
  - now rewrite app_nil_r.
  - assert (Hex : existsb (keyIs (woundKey x)) vs = false).
    { rewrite map_app in H. simpl in H. apply NoDup_remove_2 in H.
      destruct (existsb (keyIs (woundKey x)) vs) eqn:Hex; [|reflexivity].
      apply existsb_exists in Hex. destruct Hex as [y [Hy Hk]].
      apply String.eqb_eq in Hk. exfalso. apply H.
      apply in_or_app. left. rewrite <- Hk. now apply in_map. }
    unfold keepFirstValue. rewrite Hex.
    rewrite IH by now rewrite <- app_assoc.
    now rewrite <- app_assoc.
Qed.

Lemma NoDup_map_filter (p : WoundReport -> bool) (l : list WoundReport) :
  NoDup (map woundKey l) -> NoDup (map woundKey (filter p l)).
Proof.
  induction l as [|x l IH]; simpl; intros H; [constructor|].
  inversion H as [|? ? Hx Hl]; subst.
  destruct (p x); simpl; [|now apply IH].
  constructor; [|now apply IH].
  intros Hin. apply Hx. apply in_map_iff in Hin.
  destruct Hin as [y [Hy Hin]]. apply filter_In in Hin.
  rewrite <- Hy. apply in_map. tauto.
Qed.

(** A descending list with distinct keys is its own deduplication. *)
Lemma uniqueWounds_fixed (l : list WoundReport) :
  StronglySorted newerFirst l -> NoDup (map woundKey l) ->
  uniqueWounds l = l.
Proof.
  intros Hs Hn. unfold uniqueWounds, woundMap, sortedAll.
  rewrite fold_keepFirst_values by (intros e []).
  rewrite (sort_of_sorted l Hs).
  now apply (fold_keepFirstValue_distinct l []).
Qed.

(** Where [x] goes among the accepted elements of a descending list. *)
Lemma find_insert (p : WoundReport -> bool) (x : WoundReport)
    (s : list WoundReport) :
  StronglySorted newerFirst s ->
  find p (JsArray.insert byCreatedDesc x s) =
  if p x then
    match find p s with
    | Some w => if createdAt x <? createdAt w then Some w else Some x
    | None => Some x
    end
  else find p s.
Proof.
  induction 1 as [|y t Hs IH Hy]; simpl.
  - now destruct (p x).
  - unfold byCreatedDesc at 1.
    destruct (Z.leb_spec (createdAt y - createdAt x) 0) as [Hle|Hgt]; simpl.
    + destruct (p x) eqn:Hpx; [|reflexivity].
      destruct (p y) eqn:Hpy.
      * destruct (Z.ltb_spec (createdAt x) (createdAt y)); [lia|reflexivity].
      * destruct (find p t) as [w|] eqn:Hw; [|reflexivity].
        apply find_some in Hw. destruct Hw as [Hw _].
        rewrite Forall_forall in Hy. specialize (Hy w Hw).
        unfold newerFirst in Hy.
        destruct (Z.ltb_spec (createdAt x) (createdAt w)); [lia|reflexivity].
    + destruct (p y) eqn:Hpy.
      * destruct (p x); [|reflexivity].
        destruct (Z.ltb_spec (createdAt x) (createdAt y)); [reflexivity|lia].
      * exact IH.
Qed.

(** The first accepted element of the sorted list, seen from the input: the
    accepted elements before it are strictly older, those after it are not
    newer. *)
Lemma find_sort_first_newest (p : WoundReport -> bool)
    (l : list WoundReport) (w : WoundReport) :
  find p (JsArray.sort byCreatedDesc l) = Some w ->
  exists before after,
    l = before ++ w :: after /\
    (forall x, In x before -> p x = true -> createdAt x < createdAt w) /\
    (forall x, In x after -> p x = true -> createdAt x <= createdAt w).
Proof.
  revert w. induction l as [|x t IH]; intros w; simpl; [discriminate|].
  rewrite (find_insert p x _ (sort_sorted t)).
  destruct (p x) eqn:Hpx.
  - destruct (find p (JsArray.sort byCreatedDesc t)) as [w'|] eqn:Hw'.
    + destruct (Z.ltb_spec (createdAt x) (createdAt w')) as [Hlt|Hge];
        intros Hw; injection Hw as <-.
      * destruct (IH w' eq_refl) as [b [a [-> [Hb Ha]]]].
        exists (x :: b), a. repeat split; auto.
        intros y [<-|Hy] Hpy; auto.
      * exists [], t. repeat split; [intros y []|].
        intros y Hy Hpy.
        assert (createdAt y <= createdAt w'); [|lia].
        apply (find_sorted_newest p _ _ (sort_sorted t) Hw'); auto.
        now apply (proj2 (sort_In t y)).
    + intros Hw; injection Hw as <-.
      exists [], t. repeat split; [intros y []|].
      intros y Hy Hpy.
      pose proof (find_none _ _ Hw' y (proj2 (sort_In t y) Hy)). congruence.
  - intros Hw. destruct (IH w Hw) as [b [a [-> [Hb Ha]]]].
    exists (x :: b), a. repeat split; auto.
    intros y [<-|Hy] Hpy; [congruence | auto].
Qed.

Lemma passes_everything (r : WoundReport) : passes "" "all" r = true.
Proof.
  unfold passes, queryMatch. simpl toLowerCase.
  now rewrite includes_empty.
Qed.

End DedupMore.

(** X8.  What the deduplication step keeps: no two retained reports have
    the same key; every retained report is a report of the input and is at
    least as recent as every input report with its key; and every key of the
    input has a retained report. *)
Theorem dedup_keeps_newest_per_key (reports : list WoundReport) :
  NoDup (map woundKey (uniqueWounds reports)) /\
  (forall w, In w (uniqueWounds reports) ->
     In w reports /\
     forall x, In x reports -> woundKey x = woundKey w ->
               createdAt x <= createdAt w) /\
  (forall r, In r reports ->
     exists w, In w (uniqueWounds reports) /\ woundKey w = woundKey r).
Proof.
  split; [apply uniqueWounds_keys_NoDup|]. split.
  - intros w Hw. pose proof (uniqueWounds_incl reports w Hw) as Hin.
    split; [exact Hin|].
    destruct (uniqueWounds_one_per_key reports w Hin) as [v [Hf [_ [_ Hmax]]]].
    assert (Hwf : In w (filter (keyIs (woundKey w)) (uniqueWounds reports))).
    { apply filter_In. split; [exact Hw | apply String.eqb_refl]. }
    rewrite Hf in Hwf. destruct Hwf as [->|[]]. exact Hmax.
  - intros r Hr.
    destruct (uniqueWounds_one_per_key reports r Hr) as [w [Hf [_ [Hk _]]]].
    exists w. split; [|exact Hk].
    assert (Hw : In w (filter (keyIs (woundKey r)) (uniqueWounds reports)))
      by (rewrite Hf; now left).
    now apply filter_In in Hw.
Qed.

(** X10.  The tie-break of the deduplication.  For every report of the
    input, the retained report of its key stands in the input after only
    strictly older reports of that key and before none that is newer: among
    the newest snapshots of a key the first in input order is kept. *)
Theorem dedup_tie_break (reports : list WoundReport) (r : WoundReport) :
  In r reports ->
  exists w before after,
    reports = (before ++ w :: after)%list /\
    filter (keyIs (woundKey r)) (uniqueWounds reports) = [w] /\
    (forall x, In x before -> woundKey x = woundKey r ->
               createdAt x < createdAt w) /\
    (forall x, In x after -> woundKey x = woundKey r ->
               createdAt x <= createdAt w).
Proof.
  intros Hr. rewrite uniqueWounds_filter.
  destruct (find (keyIs (woundKey r)) (sortedAll reports)) as [w|] eqn:Hf.
  - destruct (find_sort_first_newest _ _ _ Hf) as [b [a [Hl [Hb Ha]]]].
    exists w, b, a. split; [exact Hl|]. split; [reflexivity|].
    split; intros x Hx Hk; [apply Hb | apply Ha]; auto;
      now apply String.eqb_eq.
  - exfalso.
    pose proof (find_none _ _ Hf r (proj2 (sort_In reports r) Hr)) as Hn.
    unfold keyIs in Hn. now rewrite String.eqb_refl in Hn.
Qed.

Lemma dedup_tie_break_witness :
  exists w before after,
    [sample "p" "1" "heel" "Stage 1" false 5;
     sample "P" "1" "Heel" "Stage 2" false 9;
     sample "p " "1" "heel" "Stage 3" false 9] =
      (before ++ w :: after)%list /\
    filter (keyIs "p|1|heel")
      (uniqueWounds [sample "p" "1" "heel" "Stage 1" false 5;
                     sample "P" "1" "Heel" "Stage 2" false 9;
                     sample "p " "1" "heel" "Stage 3" false 9]) = [w] /\
    (forall x, In x before -> woundKey x = "p|1|heel" ->
               createdAt x < createdAt w) /\
    (forall x, In x after -> woundKey x = "p|1|heel" ->
               createdAt x <= createdAt w).
Proof.
  apply (dedup_tie_break
           [sample "p" "1" "heel" "Stage 1" false 5;
            sample "P" "1" "Heel" "Stage 2" false 9;
            sample "p " "1" "heel" "Stage 3" false 9]
           (sample "p" "1" "heel" "Stage 1" false 5)).
  simpl. auto.
Defined.

(** X11.  The deduplicated list is already in descending order, so the
    final sort of [processedReports] moves nothing: the output is the
    deduplicated list with the rejected reports struck out, and with an
    empty query and the filter ["all"] it is the deduplicated list itself. *)
Theorem processedReports_is_filtered_dedup
    (reports : list WoundReport) (searchQuery stageFilter : string) :
  processedReports reports searchQuery stageFilter =
    filter (passes searchQuery stageFilter) (uniqueWounds reports) /\
  processedReports reports "" "all" = uniqueWounds reports.
Proof.
  unfold processedReports. split.
  - apply sort_of_sorted, filter_sorted, uniqueWounds_sorted.
  - rewrite filter_every by (intros x _; apply passes_everything).
    apply sort_of_sorted, uniqueWounds_sorted.
Qed.

(** X12.  Resolving a resolved list changes nothing: [processedReports]
    applied to its own output, with the same query and filter, returns that
    output. *)
Theorem processedReports_idempotent
    (reports : list WoundReport) (searchQuery stageFilter : string) :
  processedReports
    (processedReports reports searchQuery stageFilter)
    searchQuery stageFilter =
  processedReports reports searchQuery stageFilter.
Proof.
  assert (Hs : StronglySorted newerFirst
                 (processedReports reports searchQuery stageFilter))
    by apply sort_sorted.
  assert (Hn : NoDup (map woundKey
                 (processedReports reports searchQuery stageFilter))).
  { unfold processedReports.
    rewrite sort_of_sorted by apply filter_sorted, uniqueWounds_sorted.
    apply NoDup_map_filter, uniqueWounds_keys_NoDup. }
  unfold processedReports at 1.
  rewrite (uniqueWounds_fixed _ Hs Hn).
  rewrite filter_every.
  - now apply sort_of_sorted.
  - intros x Hx. apply processedReports_In in Hx.
    destruct Hx as [_ [Hq Hm]]. unfold passes. now rewrite Hq, Hm.
Qed.

(** ** Search, further *)

Section SearchFacts.

Local Open Scope string_scope.

Lemma Substring_trans (a b c : string) :
  Substring a b -> Substring b c -> Substring a c.
Proof.
  intros [p1 [q1 ->]] [p2 [q2 ->]].
  exists (p2 ++ p1), (q1 ++ q2).
  now rewrite !append_assoc.
Qed.

Lemma toLowerCase_app (a b : string) :
  toLowerCase (a ++ b) = toLowerCase a ++ toLowerCase b.
Proof.
  induction a as [|c a IH]; simpl; [reflexivity | now rewrite IH].
Qed.

Lemma append_empty_r (a : string) : a ++ "" = a.
Proof.
  induction a as [|c a IH]; simpl; [reflexivity | now rewrite IH].
Qed.

Lemma lowerUnit_idem (c : ascii) : lowerUnit (lowerUnit c) = lowerUnit c.
Proof.
  destruct c as [[] [] [] [] [] [] [] []]; reflexivity.
Qed.

Lemma toLowerCase_idem (s : string) :
  toLowerCase (toLowerCase s) = toLowerCase s.
Proof.
  induction s as [|c s IH]; simpl; [reflexivity|].
  now rewrite lowerUnit_idem, IH.
Qed.

(** A report that matches a query matches every query contained in it. *)
Lemma queryMatch_narrow (r : WoundReport) (q1 q2 : string) :
  Substring (toLowerCase q1) (toLowerCase q2) ->
  queryMatch r q2 = true -> queryMatch r q1 = true.
Proof.
  intros Hsub. unfold queryMatch.
  rewrite !orb_true_iff, !includes_iff.
  intros [[[H|H]|H]|H];
    [left; left; left | left; left; right | left; right | right];
    exact (Substring_trans _ _ _ Hsub H).
Qed.

Lemma filter_filter_sub {A} (p q : A -> bool) (l : list A) :
  (forall x, q x = true -> p x = true) ->
  filter q (filter p l) = filter q l.
Proof.
  intros H. induction l as [|x l IH]; simpl; [reflexivity|].
  destruct (p x) eqn:Hp; simpl.
  - now rewrite IH.
  - destruct (q x) eqn:Hq; [|exact IH].
    apply H in Hq. congruence.
Qed.

End SearchFacts.

(** X13.  Extending the query refines the list in place.  When the
    lowercased query [q1] occurs in the lowercased query [q2], as when
    characters are typed at either end of [q1], the output for [q2] is the
    output for [q1] with the reports that do not match [q2] struck out, in
    the same order; so no report appears that was not there before. *)
Theorem search_refines_in_place
    (reports : list WoundReport) (q1 q2 stageFilter : string) :
  Substring (toLowerCase q1) (toLowerCase q2) ->
  processedReports reports q2 stageFilter =
    filter (fun r => queryMatch r q2)
           (processedReports reports q1 stageFilter) /\
  (forall r, In r (processedReports reports q2 stageFilter) ->
             In r (processedReports reports q1 stageFilter)).
Proof.
  intros Hsub.
  assert (Heq : processedReports reports q2 stageFilter =
                filter (fun r => queryMatch r q2)
                       (processedReports reports q1 stageFilter)).
  { unfold processedReports.
    rewrite !sort_of_sorted by apply filter_sorted, uniqueWounds_sorted.
    rewrite <- (filter_filter_sub (passes q1 stageFilter)
                  (passes q2 stageFilter)).
    - apply filter_ext_in. intros r Hr. apply filter_In in Hr.
      destruct Hr as [_ Hp]. unfold passes in *.
      apply andb_true_iff in Hp. destruct Hp as [_ ->].
      apply andb_true_r.
    - intros r. unfold passes. rewrite !andb_true_iff.
      intros [Hq Hm]. split; [|exact Hm].
      exact (queryMatch_narrow r q1 q2 Hsub Hq). }
  split; [exact Heq|].
  intros r Hr. rewrite Heq in Hr. now apply filter_In in Hr.
Qed.

Lemma search_refines_in_place_witness :
  processedReports [reportA; reportB] "4b" "all" =
    filter (fun r => queryMatch r "4b")
           (processedReports [reportA; reportB] "4" "all") /\
  (forall r, In r (processedReports [reportA; reportB] "4b" "all") ->
             In r (processedReports [reportA; reportB] "4" "all")).
Proof.
  apply (search_refines_in_place [reportA; reportB] "4" "4b" "all").
  exists ""%string, "b"%string. reflexivity.
Defined.

(** X14.  The search ignores the case of the query: the lowercased query
    gives the same output as the query itself, and so do two queries that
    differ in case only. *)
Theorem search_ignores_query_case
    (reports : list WoundReport) (stageFilter : string) :
  (forall q : string,
     processedReports reports (toLowerCase q) stageFilter =
     processedReports reports q stageFilter) /\
  (forall q1 q2 : string,
     toLowerCase q1 = toLowerCase q2 ->
     processedReports reports q1 stageFilter =
     processedReports reports q2 stageFilter).
Proof.
  assert (H : forall q1 q2, toLowerCase q1 = toLowerCase q2 ->
                processedReports reports q1 stageFilter =
                processedReports reports q2 stageFilter).
  { intros q1 q2 Hq. unfold processedReports. f_equal.
    apply filter_ext. intros r. unfold passes, queryMatch.
    now rewrite Hq. }
  split; [|exact H].
  intros q. apply H, toLowerCase_idem.
Qed.

Lemma search_ignores_query_case_witness :
  processedReports [reportA; reportB] "HEEL" "all" =
  processedReports [reportA; reportB] "heel" "all".
Proof.
  apply (proj2 (search_ignores_query_case [reportA; reportB] "all")
               "HEEL" "heel").
  reflexivity.
Defined.

(** ** The facilities tile *)

Section FacilityFacts.

Local Open Scope list_scope.

Lemma existsb_eqb_In (x : string) (s : list string) :
  existsb (String.eqb x) s = true <-> In x s.
Proof.
  rewrite existsb_exists. split.
  - intros [y [Hy He]]. apply String.eqb_eq in He. now subst.
  - intros H. exists x. split; [exact H | apply String.eqb_refl].
Qed.

Lemma ofArray_spec (xs s : list string) :
  NoDup s ->
  NoDup (fold_left JsSet.add xs s) /\
  (forall x, In x (fold_left JsSet.add xs s) <-> In x s \/ In x xs) /\
  (List.length (fold_left JsSet.add xs s) <=
   List.length s + List.length xs)%nat.
Proof.
  revert s. induction xs as [|y xs IH]; intros s Hs; simpl.
  - split; [exact Hs|]. split; [tauto | lia].
  - assert (Hadd : NoDup (JsSet.add s y) /\
                   (forall x, In x (JsSet.add s y) <-> In x s \/ y = x) /\
                   (List.length (JsSet.add s y) <= S (List.length s))%nat).
    { unfold JsSet.add.
      destruct (existsb (String.eqb y) s) eqn:He.
      - apply existsb_eqb_In in He. split; [exact Hs|]. split; [|lia].
        intros x. split; [tauto | intros [H| <-]; assumption].
      - split.
        + apply NoDup_app; [exact Hs | repeat constructor; intros [] |].
          intros x Hx [<-|[]].
          apply existsb_eqb_In in Hx. congruence.
        + split; [|rewrite length_app; simpl; lia].
          intros x. rewrite in_app_iff. simpl. tauto. }
    destruct Hadd as [Hn [Hin Hlen]].
    destruct (IH _ Hn) as [Hn' [Hin' Hlen']].
    split; [exact Hn'|]. split; [|lia].
    intros x. rewrite Hin', Hin. tauto.
Qed.

End FacilityFacts.

(** X15.  The facilities tile counts each facility name once and never the
    empty name: the list it measures has no repetition, holds exactly the
    non-empty [facHosp] values of the shown reports (compared as written,
    case and spaces included), and is no longer than the list of reports. *)
Theorem activeFacilities_distinct_nonempty (processed : list WoundReport) :
  NoDup (activeFacilities processed) /\
  (forall f : string,
     In f (activeFacilities processed) <->
     f <> ""%string /\ exists r, In r processed /\ facHosp r = f) /\
  (List.length (activeFacilities processed) <= List.length processed)%nat.
Proof.
  unfold activeFacilities, JsSet.ofArray.
  destruct (ofArray_spec (map facHosp processed) [] (NoDup_nil _))
    as [Hn [Hin Hlen]].
  split; [now apply NoDup_filter|]. split.
  - intros f. rewrite filter_In, Hin. unfold truthy.
    rewrite negb_true_iff, String.eqb_neq, in_map_iff. simpl.
    split.
    + intros [[[]|[r [Hr Hi]]] Hf]. split; [exact Hf|]. now exists r.
    + intros [Hf [r [Hi Hr]]]. split; [|exact Hf]. right. now exists r.
  - eapply Nat.le_trans; [apply filter_length_le|].
    simpl in Hlen. now rewrite length_map in Hlen.
Qed.

(** ** Exports *)

Section ExportFacts.

Lemma noWhite_cons (c : ascii) (t : string) :
  noWhite (String c t) <-> isWhite c = false /\ noWhite t.
Proof.
  unfold noWhite. simpl. split.
  - intros H. split; [apply H; now left | intros d Hd; apply H; now right].
  - intros [Hc Ht] d [<-|Hd]; [exact Hc | now apply Ht].
Qed.

Lemma noWhite_app (a b : string) :
  noWhite a -> noWhite b -> noWhite (a ++ b)%string.
Proof.
  induction a as [|c a IH]; simpl; intros Ha Hb; [exact Hb|].
  apply noWhite_cons in Ha. apply noWhite_cons. split; [tauto|].
  apply IH; tauto.
Qed.

Lemma replaceRuns_noWhite (inRun : bool) (s : string) :
  noWhite (replaceRuns inRun s).
Proof.
  revert inRun. induction s as [|c t IH]; intros inRun; simpl.
  - intros d [].
  - destruct (isWhite c) eqn:Hc.
    + destruct inRun; [apply IH|].
      apply noWhite_cons. split; [reflexivity | apply IH].
    + apply noWhite_cons. split; [exact Hc | apply IH].
Qed.

Lemma replaceRuns_clean (s : string) :
  noWhite s -> replaceRuns false s = s.
Proof.
  induction s as [|c t IH]; simpl; intros H; [reflexivity|].
  apply noWhite_cons in H. destruct H as [Hc Ht].
  now rewrite Hc, IH.
Qed.

End ExportFacts.

(** X16.  The stage export never hands [exportToPDF] an empty list: with no
    report in the bucket it alerts instead.  What it exports is the
    bucket's reports, newest first, under a file name without white space,
    which for a label without white space is ["Stage_Report_"] and the
    label. *)
Theorem export_by_stage_behaviour
    (toUpperCase : string -> string) (reports : list WoundReport)
    (searchQuery stageFilter stage label : string) :
  match handleExportByStage toUpperCase
          (processedReports reports searchQuery stageFilter) stage label with
  | Alert _ =>
      getStageReports (processedReports reports searchQuery stageFilter)
                      stage = []
  | ExportToPDF exported _ filename =>
      exported <> [] /\
      exported =
        getStageReports (processedReports reports searchQuery stageFilter)
                        stage /\
      descending exported /\
      noWhite filename /\
      (noWhite label -> filename = ("Stage_Report_" ++ label)%string)
  end.
Proof.
  unfold handleExportByStage.
  destruct (getStageReports
              (processedReports reports searchQuery stageFilter) stage)
    as [|x l] eqn:Hg; simpl; [reflexivity|].
  split; [discriminate|]. split; [reflexivity|]. split.
  - rewrite <- Hg. unfold getStageReports, processedReports.
    apply sorted_descending, filter_sorted, sort_sorted.
  - split.
    + apply (noWhite_app "Stage_Report_").
      * intros c Hc. simpl in Hc.
        repeat (destruct Hc as [<-|Hc]; [reflexivity|]). destruct Hc.
      * apply replaceRuns_noWhite.
    + intros Hl. unfold replaceWhite. now rewrite replaceRuns_clean.
Qed.

Lemma export_by_stage_behaviour_witness :
  [reportB] <> [] /\
  [reportB] = getStageReports (processedReports [reportA; reportB] "" "all")
                              "3" /\
  descending [reportB] /\
  noWhite "Stage_Report_Stage_3" /\
  (noWhite "Stage 3" -> "Stage_Report_Stage_3" = "Stage_Report_Stage 3").
Proof.
  exact (export_by_stage_behaviour (fun s => s) [reportA; reportB]
           "" "all" "3" "Stage 3").
Defined.

(** ** The component as a transition system

    Each handler runs against the state of the latest render, and the
    component is rendered anew before the next event. *)

Section AppFacts.

Import App.
Context {Store : Type} `{StorageService Store}.

Local Open Scope list_scope.

(** No handler replaces the session user. *)
Lemma step_currentUser (e : Event) (w : World) :
  currentUser (fst (step e w)) = currentUser (fst w).
Proof.
  destruct w as [s store].
  destruct e; simpl; try reflexivity.
  - unfold clickTab. simpl. now destruct (AppTab_eqb tab NEW_REPORT).
  - unfold handleEdit. now destruct (hasRole s VIEWER).
  - unfold handleDeleteClick. now destruct (hasRole s ADMIN).
  - unfold confirmDelete. now destruct (reportToDelete s).
Qed.

Lemma reachable_currentUser (w0 w : World) :
  reachable w0 w -> currentUser (fst w) = currentUser (fst w0).
Proof.
  induction 1 as [|w e Hr IH He]; [reflexivity|].
  now rewrite step_currentUser.
Qed.

Lemma hasRole_currentUser (s s' : State) (role : UserRole) :
  currentUser s = currentUser s' -> hasRole s role = hasRole s' role.
Proof.
  unfold hasRole. now intros ->.
Qed.

Lemma viewer_roles (s : State) :
  hasRole s VIEWER = true ->
  hasRole s ADMIN = false /\ hasRole s NURSE = false.
Proof.
  unfold hasRole. destruct (currentUser s) as [u|]; [|discriminate].
  now destruct (User.role u).
Qed.

(** X17.  The form is in update mode only on its own tab: in a session
    that starts with no report being edited (or on the form tab), a report
    is being edited only while the active tab is [NEW_REPORT]. *)
Theorem editing_only_on_form_tab (w0 w : World) :
  (editingReport (fst w0) <> None -> activeTab (fst w0) = NEW_REPORT) ->
  reachable w0 w ->
  editingReport (fst w) <> None -> activeTab (fst w) = NEW_REPORT.
Proof.
  intros H0. induction 1 as [|w e Hr IH He]; [exact H0|].
  destruct w as [s store]. destruct He as [_ He]. simpl in IH, He.
  destruct e; simpl; try exact IH.
  - unfold clickTab. destruct tab; simpl; congruence.
  - intros Hed. apply IH in Hed. congruence.
  - congruence.
  - unfold handleEdit. destruct (hasRole s VIEWER); [exact IH | reflexivity].
  - unfold handleDeleteClick. destruct (hasRole s ADMIN); exact IH.
  - unfold confirmDelete. destruct (reportToDelete s); exact IH.
Qed.

(** X18.  A viewer can neither open the form nor write to the store.  In a
    session of a [VIEWER] that starts off the form tab with nothing being
    edited and no deletion pending, that stays so whatever the viewer does,
    and the store is never changed. *)
Theorem viewer_is_read_only (w0 w : World) :
  hasRole (fst w0) VIEWER = true ->
  editingReport (fst w0) = None ->
  activeTab (fst w0) <> NEW_REPORT ->
  reportToDelete (fst w0) = None ->
  reachable w0 w ->
  editingReport (fst w) = None /\
  activeTab (fst w) <> NEW_REPORT /\
  reportToDelete (fst w) = None /\
  snd w = snd w0.
Proof.
  intros Hv He0 Ht0 Hd0 Hreach.
  induction Hreach as [|w e Hr IH He]; [now repeat split|].
  pose proof (reachable_currentUser _ _ Hr) as Hu.
  rewrite <- (hasRole_currentUser _ _ VIEWER Hu) in Hv.
  destruct (viewer_roles _ Hv) as [Ha Hn].
  destruct w as [s store]. destruct He as [_ He].
  destruct IH as [IHe [IHt [IHd IHs]]]. simpl in *.
  assert (Hm : canModify s = false) by (unfold canModify; now rewrite Ha, Hn).
  destruct e; simpl.
  - unfold availableTabs, canAccessAI in He. rewrite Hm, Ha, Hn in He.
    simpl in He.
    destruct He as [<-|[<-|[]]]; simpl; repeat split; auto; discriminate.
  - repeat split; auto. discriminate.
  - destruct He as [_ He]. congruence.
  - rewrite Hv. simpl. now repeat split.
  - rewrite Ha. simpl. now repeat split.
  - rewrite IHd. simpl. now repeat split.
  - now repeat split.
  - now repeat split.
  - now repeat split.
  - now repeat split.
  - now repeat split.
Qed.

(** X19.  Only an administrator deletes.  In a session whose user is not an
    [ADMIN] and that starts with no deletion pending, none is ever pending,
    so [confirmDelete] changes neither the state nor the store. *)
Theorem only_admin_deletes (w0 w : World) :
  hasRole (fst w0) ADMIN = false ->
  reportToDelete (fst w0) = None ->
  reachable w0 w ->
  reportToDelete (fst w) = None /\ confirmDelete w = w.
Proof.
  intros Ha Hd0 Hreach.
  assert (Hd : reportToDelete (fst w) = None).
  { induction Hreach as [|w e Hr IH He]; [exact Hd0|].
    pose proof (reachable_currentUser _ _ Hr) as Hu.
    rewrite <- (hasRole_currentUser _ _ ADMIN Hu) in Ha.
    destruct w as [s store]. simpl in *.
    destruct e; simpl; try exact IH; try reflexivity.
    - destruct (AppTab_eqb tab NEW_REPORT); simpl; exact IH.
    - destruct (hasRole s VIEWER); simpl; exact IH.
    - rewrite Ha. simpl. exact IH.
    - destruct (reportToDelete s) eqn:E; simpl; [reflexivity | exact E]. }
  split; [exact Hd|].
  destruct w as [s store]. unfold confirmDelete. simpl in Hd. now rewrite Hd.
Qed.

(** X20.  The list in the state never goes stale: from the mount effect on,
    after every event, [reports] is what [getAllReports] returns for the
    store. *)
Theorem reports_in_sync (s0 : State) (store0 : Store) (w : World) :
  reachable (mount (s0, store0)) w ->
  reports (fst w) = getAllReports (snd w).
Proof.
  induction 1 as [|w e Hr IH He]; [reflexivity|].
  destruct w as [s store]. simpl in IH.
  destruct e; simpl; try exact IH; try reflexivity.
  - destruct (AppTab_eqb tab NEW_REPORT); simpl; exact IH.
  - destruct (hasRole s VIEWER); simpl; exact IH.
  - destruct (hasRole s ADMIN); simpl; exact IH.
  - destruct (reportToDelete s); simpl; [reflexivity | exact IH].
Qed.

(** X21.  The stage filter of the component is always one of ["all"],
    ["staged"], ["none"], so the label [handleExportFiltered] puts in the
    title names the filter in force: it is ["Non-Staged"] exactly under
    ["none"] and ["Pressure Ulcers"] exactly under ["staged"]. *)
Theorem stage_filter_is_all_staged_none (store0 : Store) (w : World) :
  reachable (mount (initialState, store0)) w ->
  In (stageFilter (fst w)) ["all"; "staged"; "none"]%string /\
  (filterLabel (stageFilter (fst w)) = "Non-Staged"%string <->
   stageFilter (fst w) = "none"%string) /\
  (filterLabel (stageFilter (fst w)) = "Pressure Ulcers"%string <->
   stageFilter (fst w) = "staged"%string).
Proof.
  intros Hreach.
  assert (Hin : In (stageFilter (fst w)) ["all"; "staged"; "none"]%string).
  { induction Hreach as [|w e Hr IH He]; [simpl; auto|].
    destruct w as [s store]. destruct He as [_ He]. simpl in IH, He.
    destruct e; simpl; try exact IH.
    - destruct (AppTab_eqb tab NEW_REPORT); simpl; exact IH.
    - destruct (hasRole s VIEWER); simpl; exact IH.
    - destruct (hasRole s ADMIN); simpl; exact IH.
    - destruct (reportToDelete s); simpl; exact IH.
    - tauto.
    - auto. }
  split; [exact Hin|].
  destruct Hin as [<-|[<-|[<-|[]]]]; unfold filterLabel; simpl;
    split; split; intros E; first [reflexivity | discriminate E].
Qed.

(** X22.  The session user is the default administrator throughout, so the
    role guards never stop anything: the user may modify, delete and use
    the assistant, the four tabs are on offer in their fixed order, and
    the active tab is one of them. *)
Theorem session_is_always_admin (store0 : Store) (w : World) :
  reachable (mount (initialState, store0)) w ->
  currentUser (fst w) = Some DEFAULT_USER /\
  canModify (fst w) = true /\ canDelete (fst w) = true /\
  canAccessAI (fst w) = true /\
  map Tab.id (availableTabs (fst w)) =
    [DASHBOARD; NEW_REPORT; HISTORY; AI_ASSISTANT] /\
  In (activeTab (fst w)) (map Tab.id (availableTabs (fst w))).
Proof.
  intros Hreach. pose proof (reachable_currentUser _ _ Hreach) as Hu.
  simpl in Hu.
  assert (Ha : hasRole (fst w) ADMIN = true)
    by (unfold hasRole; now rewrite Hu).
  assert (Ht : map Tab.id (availableTabs (fst w)) =
               [DASHBOARD; NEW_REPORT; HISTORY; AI_ASSISTANT]).
  { unfold availableTabs, canModify, canAccessAI. now rewrite Ha. }
  unfold canModify, canDelete, canAccessAI. rewrite Ha, Ht.
  repeat split; auto.
  destruct (activeTab (fst w)); simpl; auto.
Qed.

(** X23.  Deleting takes the two steps.  For an administrator the click
    followed by the confirmation removes the report's id from the store,
    reloads the list and clears the pending deletion; after the dialog is
    closed a confirmation does nothing; and a second confirmation after a
    first one does nothing more. *)
Theorem delete_needs_confirmation :
  (forall (s : State) (store : Store) (r : WoundReport),
     hasRole s ADMIN = true ->
     confirmDelete (handleDeleteClick r (s, store)) =
     (setReportToDelete None
        (setReports (getAllReports (deleteReport (id r) store)) s),
      deleteReport (id r) store)) /\
  (forall w : World,
     confirmDelete (step CloseDeleteModal w) = step CloseDeleteModal w) /\
  (forall w : World, confirmDelete (confirmDelete w) = confirmDelete w).
Proof.
  split; [|split].
  - intros s store r Ha. unfold handleDeleteClick. rewrite Ha. simpl.
    unfold confirmDelete. simpl. reflexivity.
  - intros [s store]. reflexivity.
  - intros [s store]. unfold confirmDelete.
    destruct (reportToDelete s) as [r|] eqn:Hr; simpl; [reflexivity|].
    now rewrite Hr.
Qed.

(** X24.  Saving is an update exactly for a known id: [handleSaveReport]
    calls [updateReport] when a report of the list has the id of the
    submitted one and [saveReport] when none has; either way it reloads the
    list, leaves update mode and shows the history tab. *)
Theorem save_updates_known_id (report : WoundReport) (w : World) :
  ((exists r, In r (reports (fst w)) /\ id r = id report) ->
   snd (handleSaveReport report w) = updateReport report (snd w)) /\
  ((forall r, In r (reports (fst w)) -> id r <> id report) ->
   snd (handleSaveReport report w) = saveReport report (snd w)) /\
  reports (fst (handleSaveReport report w)) =
    getAllReports (snd (handleSaveReport report w)) /\
  editingReport (fst (handleSaveReport report w)) = None /\
  activeTab (fst (handleSaveReport report w)) = HISTORY.
Proof.
  destruct w as [s store]. unfold handleSaveReport. simpl.
  destruct (find (fun r => (id r =? id report)%string) (reports s))
    as [x|] eqn:Hf; simpl.
  - repeat split.
    intros Hno. apply find_some in Hf. destruct Hf as [Hx He].
    apply String.eqb_eq in He. now apply Hno in Hx.
  - repeat split.
    intros [r [Hr He]]. pose proof (find_none _ _ Hf r Hr) as Hn.
    simpl in Hn. rewrite He, String.eqb_refl in Hn. discriminate.
Qed.

End AppFacts.

(** ** The theorems above at sample sessions *)

Lemma uniqueWounds_one_per_wound_witness :
  exists w,
    filter (sameWound reportA) (uniqueWounds [reportA; reportB]) = [w] /\
    In w [reportA; reportB] /\ sameWound reportA w = true /\
    forall x, In x [reportA; reportB] -> sameWound reportA x = true ->
              createdAt x <= createdAt w.
Proof.
  apply (uniqueWounds_one_per_wound [reportA; reportB] reportA).
  - intros x [<-|[<-|[]]]; reflexivity.
  - simpl. auto.
Defined.

Lemma editing_only_on_form_tab_witness :
  App.activeTab
    (fst (App.step (App.ClickEdit reportB)
            (App.step (App.ClickTab HISTORY) sampleWorld))) = NEW_REPORT.
Proof.
  apply (editing_only_on_form_tab sampleWorld).
  - intros E. exfalso. apply E. reflexivity.
  - apply App.reach_step; [apply App.reach_step; [apply App.reach_start|]|].
    + split; [discriminate | simpl; auto].
    + split; [discriminate|]. split; [reflexivity|]. split; [reflexivity|].
      vm_compute. auto.
  - discriminate.
Defined.

Lemma viewer_is_read_only_witness :
  App.editingReport (fst (App.step App.OpenAIPortal (sessionOf VIEWER)))
    = None /\
  App.activeTab (fst (App.step App.OpenAIPortal (sessionOf VIEWER)))
    <> NEW_REPORT /\
  App.reportToDelete (fst (App.step App.OpenAIPortal (sessionOf VIEWER)))
    = None /\
  snd (App.step App.OpenAIPortal (sessionOf VIEWER)) = snd (sessionOf VIEWER).
Proof.
  apply (viewer_is_read_only (sessionOf VIEWER)).
  - reflexivity.
  - reflexivity.
  - discriminate.
  - reflexivity.
  - apply App.reach_step; [apply App.reach_start|].
    split; [discriminate | reflexivity].
Defined.

Lemma only_admin_deletes_witness :
  App.reportToDelete
    (fst (App.step (App.SubmitReport reportA)
            (App.step (App.ClickTab NEW_REPORT) (sessionOf NURSE)))) = None /\
  App.confirmDelete
    (App.step (App.SubmitReport reportA)
       (App.step (App.ClickTab NEW_REPORT) (sessionOf NURSE))) =
  App.step (App.SubmitReport reportA)
    (App.step (App.ClickTab NEW_REPORT) (sessionOf NURSE)).
Proof.
  apply (only_admin_deletes (sessionOf NURSE)).
  - reflexivity.
  - reflexivity.
  - apply App.reach_step; [apply App.reach_step; [apply App.reach_start|]|].
    + split; [discriminate | simpl; auto].
    + split; [discriminate|]. split; reflexivity.
Defined.

Lemma reports_in_sync_witness :
  App.reports
    (fst (App.step App.ConfirmDelete
            (App.step (App.ClickDelete reportB)
               (App.step (App.ClickTab HISTORY) sampleWorld)))) =
  getAllReports
    (snd (App.step App.ConfirmDelete
            (App.step (App.ClickDelete reportB)
               (App.step (App.ClickTab HISTORY) sampleWorld)))).
Proof.
  apply (reports_in_sync App.initialState [reportA; reportB]).
  apply App.reach_step;
    [apply App.reach_step;
       [apply App.reach_step; [apply App.reach_start|]|]|].
  - split; [discriminate | simpl; auto].
  - split; [discriminate|]. split; [reflexivity|]. split; [reflexivity|].
    vm_compute. auto.
  - split; [discriminate | exact I].
Defined.

Lemma stage_filter_is_all_staged_none_witness :
  In (App.stageFilter
        (fst (App.step (App.SelectStageFilter "staged")
                (App.step (App.ClickTab HISTORY) sampleWorld))))
     ["all"; "staged"; "none"].
Proof.
  apply (stage_filter_is_all_staged_none [reportA; reportB]).
  apply App.reach_step; [apply App.reach_step; [apply App.reach_start|]|].
  - split; [discriminate | simpl; auto].
  - split; [discriminate|]. split; [reflexivity | simpl; auto].
Defined.

Lemma session_is_always_admin_witness :
  App.currentUser
    (fst (App.step (App.TypeSearch "heel")
            (App.step (App.ClickTab HISTORY) sampleWorld))) =
  Some App.DEFAULT_USER.
Proof.
  apply (session_is_always_admin [reportA; reportB]).
  apply App.reach_step; [apply App.reach_step; [apply App.reach_start|]|].
  - split; [discriminate | simpl; auto].
  - split; [discriminate | reflexivity].
Defined.

(** X25.  The filtered export agrees with its title.  On an empty list
    [handleExportFiltered] alerts and exports nothing; otherwise it exports
    the shown list as it is, newest first, every report of it matching the
    query and the stage filter, under a title that contains the label of
    that filter and the query as typed. *)
Theorem export_filtered_behaviour
    (reports : list WoundReport) (searchQuery stageFilter : string) :
  match handleExportFiltered
          (processedReports reports searchQuery stageFilter)
          searchQuery stageFilter with
  | Alert _ => processedReports reports searchQuery stageFilter = []
  | ExportToPDF exported title filename =>
      exported <> [] /\
      exported = processedReports reports searchQuery stageFilter /\
      descending exported /\
      (forall r, In r exported ->
         queryMatch r searchQuery = true /\
         isMatchingStage r stageFilter = true) /\
      Substring (filterLabel stageFilter) title /\
      Substring searchQuery title /\
      filename = "Filtered_Wound_Audit"%string
  end.
Proof.
  unfold handleExportFiltered.
  remember (processedReports reports searchQuery stageFilter) as shown
    eqn:Hp.
  destruct shown as [|x l]; cbn [List.length Nat.eqb]; [reflexivity|].
  split; [discriminate|]. split; [reflexivity|]. split.
  { rewrite Hp. apply sorted_descending, sort_sorted. }
  split.
  { intros r Hr. rewrite Hp in Hr. apply processedReports_In in Hr. tauto. }
  split; [|split; [|reflexivity]].
  - destruct (truthy searchQuery).
    + exists ("FILTERED AUDIT: " ++ searchQuery ++ " (")%string, ")"%string.
      now rewrite !append_assoc.
    + exists "FILTERED AUDIT: "%string, ""%string.
      now rewrite append_empty_r.
  - unfold truthy. destruct (String.eqb_spec searchQuery "") as [->|Hq]; simpl.
    + exists "FILTERED AUDIT: "%string, (filterLabel stageFilter).
      reflexivity.
    + exists "FILTERED AUDIT: "%string,
             (" (" ++ filterLabel stageFilter ++ ")")%string.
      reflexivity.
Qed.

(** X26.  Deduplication loses nothing it need not: when the keys of the
    input reports are pairwise different, the deduplicated list is the whole
    input sorted newest first, and so is the output for an empty query and
    the filter ["all"]. *)
Theorem dedup_keeps_distinct_wounds (reports : list WoundReport) :
  NoDup (map woundKey reports) ->
  uniqueWounds reports = sortedAll reports /\
  processedReports reports "" "all" = sortedAll reports /\
  Permutation (uniqueWounds reports) reports.
Proof.
  intros Hn.
  assert (Hu : uniqueWounds reports = sortedAll reports).
  { unfold uniqueWounds, woundMap.
    rewrite fold_keepFirst_values by (intros e []).
    apply (fold_keepFirstValue_distinct (sortedAll reports) []).
    simpl. eapply Permutation_NoDup; [|exact Hn].
    apply Permutation_map, Permutation_sym, sort_perm. }
  split; [exact Hu|]. split.
  - unfold processedReports.
    rewrite filter_every by (intros x _; apply passes_everything).
    rewrite Hu. apply sort_of_sorted, sort_sorted.
  - rewrite Hu. apply sort_perm.
Qed.

Lemma dedup_keeps_distinct_wounds_witness :
  uniqueWounds [reportA; barLeft] = sortedAll [reportA; barLeft] /\
  processedReports [reportA; barLeft] "" "all" = sortedAll [reportA; barLeft] /\
  Permutation (uniqueWounds [reportA; barLeft]) [reportA; barLeft].
Proof.
  apply (dedup_keeps_distinct_wounds [reportA; barLeft]).
  repeat constructor; simpl; intros E;
    repeat (destruct E as [E|E]; [discriminate E|]); exact E.
Defined.

(** ** Wound identity: letter case and surrounding white space *)

Section IdentityFacts.

Local Open Scope string_scope.

Lemma allWhite_cons (c : ascii) (t : string) :
  allWhite (String c t) <-> isWhite c = true /\ allWhite t.
Proof.
  unfold allWhite. simpl. split.
  - intros H. split; [apply H; now left | intros d Hd; apply H; now right].
  - intros [Hc Ht] d [<-|Hd]; [exact Hc | now apply Ht].
Qed.

Lemma allWhite_empty : allWhite "".
Proof.
  intros c [].
Qed.

Lemma trimStart_allWhite (s : string) : allWhite s -> trimStart s = "".
Proof.
  induction s as [|c t IH]; simpl; intros H; [reflexivity|].
  apply allWhite_cons in H. destruct H as [-> Ht]. now apply IH.
Qed.

Lemma trimEnd_allWhite (s : string) : allWhite s -> trimEnd s = "".
Proof.
  induction s as [|c t IH]; simpl; intros H; [reflexivity|].
  apply allWhite_cons in H. destruct H as [Hc Ht].
  now rewrite (IH Ht), Hc.
Qed.

Lemma trimStart_pad (l s : string) :
  allWhite l -> trimStart (l ++ s) = trimStart s.
Proof.
  induction l as [|c l IH]; simpl; intros H; [reflexivity|].
  apply allWhite_cons in H. destruct H as [-> Hl]. now apply IH.
Qed.

Lemma trimEnd_pad (s r : string) :
  allWhite r -> trimEnd (s ++ r) = trimEnd s.
Proof.
  intros Hr. induction s as [|c t IH]; simpl.
  - now apply trimEnd_allWhite.
  - now rewrite IH.
Qed.

Lemma trim_pad_r (s r : string) : allWhite r -> trim (s ++ r) = trim s.
Proof.
  intros Hr. unfold trim. induction s as [|c t IH]; simpl.
  - now rewrite (trimStart_allWhite r Hr).
  - destruct (isWhite c); [exact IH|].
    apply (trimEnd_pad (String c t) r Hr).
Qed.

(** White space around a text does not show in its trimmed form. *)
Lemma trim_pad (l s r : string) :
  allWhite l -> allWhite r -> trim (l ++ s ++ r) = trim s.
Proof.
  intros Hl Hr. unfold trim. rewrite (trimStart_pad l _ Hl).
  apply (trim_pad_r s r Hr).
Qed.

Lemma trimStart_split (s : string) :
  exists l, s = l ++ trimStart s /\ allWhite l.
Proof.
  induction s as [|c t [l [Hl Hw]]]; simpl.
  - exists "". split; [reflexivity | apply allWhite_empty].
  - destruct (isWhite c) eqn:Hc.
    + exists (String c l). split; [simpl; now rewrite <- Hl|].
      now apply allWhite_cons.
    + exists "". split; [reflexivity | apply allWhite_empty].
Qed.

Lemma trimEnd_split (s : string) :
  exists r, s = trimEnd s ++ r /\ allWhite r.
Proof.
  induction s as [|c t [r [Hr Hw]]]; simpl.
  - exists "". split; [reflexivity | apply allWhite_empty].
  - destruct (trimEnd t) as [|d t'] eqn:Ht.
    + simpl in Hr. subst t. destruct (isWhite c) eqn:Hc.
      * exists (String c r). split; [reflexivity|]. now apply allWhite_cons.
      * exists r. now split.
    + exists r. split; [|exact Hw]. simpl. now rewrite Hr at 1.
Qed.

(** A text is its trimmed form between two runs of white space. *)
Lemma trim_split (s : string) :
  exists l r, s = l ++ trim s ++ r /\ allWhite l /\ allWhite r.
Proof.
  destruct (trimStart_split s) as [l [Hl Hwl]].
  destruct (trimEnd_split (trimStart s)) as [r [Hr Hwr]].
  exists l, r. unfold trim. split; [|now split].
  now rewrite <- Hr.
Qed.

Lemma alike_normal (x y : string) :
  alike x y <-> trim (toLowerCase x) = trim (toLowerCase y).
Proof.
  split.
  - intros [l1 [r1 [l2 [r2 [core [-> [-> [H1 [H2 [H3 H4]]]]]]]]]].
    now rewrite !trim_pad.
  - intros He.
    destruct (trim_split (toLowerCase x)) as [l1 [r1 [Hx [H1 H2]]]].
    destruct (trim_split (toLowerCase y)) as [l2 [r2 [Hy [H3 H4]]]].
    exists l1, r1, l2, r2, (trim (toLowerCase x)).
    split; [exact Hx|]. split; [now rewrite He at 1|]. now repeat split.
Qed.

(** Two reports with one key and different timestamps: only the newer one
    is shown, whichever comes first in the input. *)
Lemma dedup_pair (a b : WoundReport) :
  woundKey a = woundKey b -> (createdAt a < createdAt b)%Z ->
  processedReports [a; b] "" "all" = [b] /\
  processedReports [b; a] "" "all" = [b].
Proof.
  intros Hk Hlt.
  assert (Hab : (byCreatedDesc a b <=? 0)%Z = false)
    by (unfold byCreatedDesc; apply Z.leb_gt; lia).
  assert (Hba : (byCreatedDesc b a <=? 0)%Z = true)
    by (unfold byCreatedDesc; apply Z.leb_le; lia).
  assert (Hu : fold_left keepFirst [b; a] JsMap.empty = [(woundKey b, b)]).
  { simpl. unfold keepFirst at 2. simpl.
    unfold keepFirst. simpl. now rewrite Hk, String.eqb_refl. }
  unfold processedReports, uniqueWounds, woundMap, sortedAll.
  simpl JsArray.sort. rewrite Hab, Hba, Hu. simpl.
  now rewrite passes_everything.
Qed.

End IdentityFacts.

(** C4.  The example: with the snapshot A (Jane Doe, 4B, Heel, created 100,
    Stage 2) and the snapshot B (jane doe, 4b, heel, created 200, Stage 3),
    an empty query and the filter ["all"], [processedReports] returns [B]
    alone, in either input order, and B matches stage ["3"].  The matching
    behind it: two reports whose patient names, room numbers and sites
    differ in letter case and surrounding white space only have one key, so
    only the newer of the two is shown; and two bar-free reports with one
    key differ in nothing else but case and surrounding white space. *)
Theorem identity_ignores_case_and_padding :
  (forall A B : WoundReport,
     patientName A = "Jane Doe" -> roomNo A = "4B" -> site A = "Heel" ->
     createdAt A = 100 -> typeStage A = "Stage 2" ->
     patientName B = "jane doe" -> roomNo B = "4b" -> site B = "heel" ->
     createdAt B = 200 -> typeStage B = "Stage 3" ->
     processedReports [A; B] "" "all" = [B] /\
     processedReports [B; A] "" "all" = [B] /\
     isMatchingStage B "3" = true) /\
  (forall a b : WoundReport,
     alike (patientName a) (patientName b) ->
     alike (roomNo a) (roomNo b) ->
     alike (site a) (site b) ->
     woundKey a = woundKey b /\
     (createdAt a < createdAt b ->
      processedReports [a; b] "" "all" = [b] /\
      processedReports [b; a] "" "all" = [b])) /\
  (forall a b : WoundReport,
     barFree a = true -> barFree b = true ->
     woundKey a = woundKey b ->
     alike (patientName a) (patientName b) /\
     alike (roomNo a) (roomNo b) /\
     alike (site a) (site b)).
Proof.
  split; [exact jane_doe_example|]. split.
  - intros a b Hn Hr Hs.
    apply alike_normal in Hn, Hr, Hs.
    assert (Hk : woundKey a = woundKey b)
      by (unfold woundKey; now rewrite Hn, Hr, Hs).
    split; [exact Hk|]. intros Hlt. now apply dedup_pair.
  - intros a b Ha Hb Hk.
    unfold barFree in Ha, Hb.
    rewrite !andb_true_iff, !negb_true_iff in Ha, Hb.
    destruct Ha as [Han Har], Hb as [Hbn Hbr].
    unfold woundKey in Hk.
    destruct (join_bar_inj _ _ _ _ Han Hbn Hk) as [Hn Hrest].
    destruct (join_bar_inj _ _ _ _ Har Hbr Hrest) as [Hr Hs].
    repeat split; now apply alike_normal.
Qed.

Lemma identity_ignores_case_and_padding_witness :
  (processedReports [reportA; reportB] "" "all" = [reportB] /\
   processedReports [reportB; reportA] "" "all" = [reportB] /\
   isMatchingStage reportB "3" = true) /\
  (woundKey reportA_padded = woundKey reportB /\
   processedReports [reportA_padded; reportB] "" "all" = [reportB] /\
   processedReports [reportB; reportA_padded] "" "all" = [reportB]) /\
  (alike (patientName reportA_padded) (patientName reportB) /\
   alike (roomNo reportA_padded) (roomNo reportB) /\
   alike (site reportA_padded) (site reportB)).
Proof.
  destruct identity_ignores_case_and_padding as [Hex [Hsame Honly]].
  split; [apply (Hex reportA reportB); reflexivity|]. split.
  - assert (Hw1 : allWhite " ")
      by (intros c [<-|[]]; reflexivity).
    assert (Hw2 : allWhite "  ")
      by (intros c [<-|[<-|[]]]; reflexivity).
    assert (Hw0 : allWhite "") by (intros c []).
    destruct (Hsame reportA_padded reportB) as [Hk Hp].
    + exists "  "%string, " "%string, ""%string, ""%string,
             "jane doe"%string.
      repeat split; assumption.
    + exists ""%string, " "%string, ""%string, ""%string, "4b"%string.
      repeat split; assumption.
    + exists " "%string, ""%string, ""%string, ""%string, "heel"%string.
      repeat split; assumption.
    + split; [exact Hk|]. apply Hp. simpl. lia.
  - apply (Honly reportA_padded reportB); reflexivity.
Defined.
